(** * Blackjack: a shallow embedding of [BlackJack.py]

    The cards, the shoe ([Deck]), the hands and the round controller
    ([BlackjackGame]) of [src/BlackJack.py], written as Rocq functions, with the
    properties of the scoring, reshuffle, betting and settlement rules proved
    about them.

    Conventions.
    - Python [int]s (card values, hand totals, [num_decks]) are [Z].
    - Money ([player_balance], [current_bet]) is a Python [float], that is an
      IEEE 754 binary64 number: Rocq's primitive [float], with its own [+], [-],
      [*], [<=?] and [<?].
    - A Python list is a Rocq list in the same order; [list.pop()] takes the
      last element.
    - Mutable objects are passed and returned explicitly; an exception is the
      [Raise] outcome of a [result].
    - [input()] reads the next line of a finite standard input, and raises
      [EOFError] when none is left.
    - What the interpreter supplies ([random.shuffle], [float(str)],
      [str.upper]) is a [Runtime] instance.
    - Printing is left out of the round and of the session; what is printed
      of a card and of a hand ([Card.__str__], [Hand.display]) is given as the
      string printed. *)

From Stdlib Require Import String Ascii DecimalString.
From Stdlib Require Import List ZArith Lia Bool Floats Permutation.
From Equations Require Import Equations.
From Equations.Prop Require Import Logic.
Import ListNotations.

#[local] Open Scope Z_scope.

(** ** Suits, ranks and cards *)

Inductive Suit := HEARTS | DIAMONDS | CLUBS | SPADES.

Inductive Rank :=
  ACE | TWO | THREE | FOUR | FIVE | SIX | SEVEN | EIGHT | NINE | TEN
| JACK | QUEEN | KING.

(** [Rank.value[1]] *)
Definition rank_value (r : Rank) : Z :=
  match r with
  | ACE => 11
  | TWO => 2 | THREE => 3 | FOUR => 4 | FIVE => 5 | SIX => 6
  | SEVEN => 7 | EIGHT => 8 | NINE => 9 | TEN => 10
  | JACK => 10 | QUEEN => 10 | KING => 10
  end.

(** [card.rank == Rank.ACE] *)
Definition is_ace (r : Rank) : bool :=
  match r with ACE => true | _ => false end.

Record Card := mkCard { suit : Suit; rank : Rank }.

(** [Card.get_value] *)
Definition card_value (c : Card) : Z := rank_value (rank c).

(** The iteration orders of [for suit in Suit] and [for rank in Rank]. *)
Definition all_suits : list Suit := [HEARTS; DIAMONDS; CLUBS; SPADES].

Definition all_ranks : list Rank :=
  [ACE; TWO; THREE; FOUR; FIVE; SIX; SEVEN; EIGHT; NINE; TEN; JACK; QUEEN; KING].

(** ** Hands *)

Record Hand := mkHand { hand_cards : list Card }.

(** [Hand.__init__] *)
Definition new_hand : Hand := mkHand [].

(** [Hand.add_card]: [self.cards.append(card)] *)
Definition add_card (self : Hand) (card : Card) : Hand :=
  mkHand (hand_cards self ++ [card]).

(** The [for] loop of [Hand.get_value], from the running [(value, aces)]. *)
Fixpoint tally (cs : list Card) (value : Z) (aces : nat) : Z * nat :=
  match cs with
  | [] => (value, aces)
  | card :: rest =>
      tally rest (value + card_value card)
            (if is_ace (rank card) then S aces else aces)
  end.

(** The loop [while value > 21 and aces > 0: value -= 10; aces -= 1]. *)
Fixpoint adjust (value : Z) (aces : nat) : Z :=
  match aces with
  | O => value
  | S aces' => if 21 <? value then adjust (value - 10) aces' else value
  end.

(** [Hand.get_value] *)
Definition get_value (self : Hand) : Z :=
  let '(value, aces) := tally (hand_cards self) 0 0%nat in
  adjust value aces.

(** [Hand.is_blackjack] *)
Definition is_blackjack (self : Hand) : bool :=
  (Z.of_nat (length (hand_cards self)) =? 2) && (get_value self =? 21).

(** [Hand.is_bust] *)
Definition is_bust (self : Hand) : bool := 21 <? get_value self.

(** The two quantities the loops of [get_value] compute with: the sum of the
    cards' base values, and the number of Aces. *)
Definition base_total (cs : list Card) : Z :=
  fold_right (fun card acc => card_value card + acc) 0 cs.

Definition count_aces (cs : list Card) : nat :=
  List.length (filter (fun card => is_ace (rank card)) cs).

(** The total with every Ace counted as 1. *)
Definition hard_total (self : Hand) : Z :=
  base_total (hand_cards self) - 10 * Z.of_nat (count_aces (hand_cards self)).

(** How far the hard total is from 17: a bound on the cards the dealer can
    still draw. *)
Definition draws_left (self : Hand) : nat := Z.to_nat (17 - hard_total self).
Arguments draws_left : simpl never.

Lemma tally_spec cs : forall value aces,
  tally cs value aces
  = (value + base_total cs, (aces + count_aces cs)%nat).
Proof.
  induction cs as [|card rest IH]; intros value aces; cbn [tally].
  - cbn. f_equal; lia.
  - rewrite IH. unfold count_aces, base_total. cbn [fold_right filter].
    destruct (is_ace (rank card)); cbn [List.length]; f_equal; lia.
Qed.

Lemma get_value_unfold self :
  get_value self
  = adjust (base_total (hand_cards self)) (count_aces (hand_cards self)).
Proof.
  unfold get_value. rewrite tally_spec. reflexivity.
Qed.

Lemma adjust_lower_bound aces : forall value,
  value - 10 * Z.of_nat aces <= adjust value aces.
Proof.
  induction aces as [|aces IH]; intros value; cbn [adjust].
  - lia.
  - destruct (21 <? value) eqn:E.
    + specialize (IH (value - 10)). lia.
    + lia.
Qed.

Lemma hard_total_le_get_value self : hard_total self <= get_value self.
Proof.
  rewrite get_value_unfold. apply adjust_lower_bound.
Qed.

Lemma base_total_app cs cs' :
  base_total (cs ++ cs') = base_total cs + base_total cs'.
Proof.
  unfold base_total.
  induction cs as [|c cs IH]; cbn [app fold_right] in *; lia.
Qed.

Lemma count_aces_app cs cs' :
  count_aces (cs ++ cs') = (count_aces cs + count_aces cs')%nat.
Proof.
  unfold count_aces. rewrite filter_app, length_app. reflexivity.
Qed.

(** A card adds at least 1 to the hard total: an Ace 1, another card its value. *)
Lemma hard_total_add_card self card :
  hard_total (add_card self card)
  = hard_total self + (if is_ace (rank card) then 1 else card_value card).
Proof.
  unfold hard_total, add_card. cbn [hand_cards].
  rewrite base_total_app, count_aces_app.
  unfold count_aces at 2. unfold base_total at 2. cbn [fold_right filter].
  unfold card_value. destruct (rank card); cbn [is_ace rank_value List.length]; lia.
Qed.

Lemma hard_total_add_card_lt self card :
  hard_total self + 1 <= hard_total (add_card self card).
Proof.
  rewrite hard_total_add_card. unfold card_value.
  destruct (rank card); cbn; lia.
Qed.

(** ** Outcomes of a call *)

(** The exceptions the program can run into: [input()] at the end of the
    standard input, [list.pop()] on an empty list, and a method called on a
    hand that is still [None]. [ValueError] is caught inside [place_bet] and
    never leaves it. *)
Inductive exn := EOFError | IndexError | AttributeError.

Inductive result (A : Type) : Type :=
| Ok (a : A)
| Raise (e : exn).
Arguments Ok {A} a.
Arguments Raise {A} e.

Definition bind {A B} (r : result A) (k : A -> result B) : result B :=
  match r with
  | Ok a => k a
  | Raise e => Raise e
  end.

Notation "' p <- r ;; k" := (bind r (fun p => k))
  (at level 61, p pattern, r at next level, right associativity).

(** Reading an attribute of a hand that may still be [None]. *)
Definition the_hand (h : option Hand) : result Hand :=
  match h with
  | Some h => Ok h
  | None => Raise AttributeError
  end.

(** ** What the interpreter supplies *)

Class Runtime := {
  (** the state of the [random] module's generator *)
  Random : Type;
  (** [random.shuffle(x)]: the list is permuted, the generator advances *)
  shuffle : list Card -> Random -> list Card * Random;
  shuffle_Permutation : forall l g, Permutation l (fst (shuffle l g));
  (** [float(s)]: [None] stands for [ValueError] *)
  float_of_string : string -> option float;
  (** [s.upper()] *)
  upper : string -> string
}.

Section Program.

Context {RT : Runtime}.

(** ** The shoe *)

Record Deck := mkDeck { cards : list Card; num_decks : Z }.

(** One pass of [for suit in Suit: for rank in Rank: append(Card(suit, rank))]. *)
Definition full_deck : list Card :=
  flat_map (fun s => map (mkCard s) all_ranks) all_suits.

(** The list built by [for _ in range(num_decks)]; [range] of a number that
    is not positive is empty. *)
Definition fresh_cards (n : Z) : list Card :=
  concat (repeat full_deck (Z.to_nat n)).

(** [Deck.reset] *)
Definition reset (self : Deck) (g : Random) : Deck * Random :=
  let (cs, g') := shuffle (fresh_cards (num_decks self)) g in
  (mkDeck cs (num_decks self), g').

(** [Deck.__init__] *)
Definition new_deck (n : Z) (g : Random) : Deck * Random :=
  reset (mkDeck [] n) g.

(** [list.pop()]: the list without its last element, and that element;
    [None] stands for [IndexError]. *)
Fixpoint pop {A : Type} (l : list A) : option (list A * A) :=
  match l with
  | [] => None
  | x :: l' =>
      match pop l' with
      | None => Some ([], x)
      | Some (front, y) => Some (x :: front, y)
      end
  end.

(** [Deck.deal_card] *)
Definition deal_card (self : Deck) (g : Random) : result (Card * Deck * Random) :=
  let (self, g) :=
    if Z.of_nat (length (cards self)) <? 10 then reset self g else (self, g) in
  match pop (cards self) with
  | Some (front, card) => Ok (card, mkDeck front (num_decks self), g)
  | None => Raise IndexError
  end.

(** [n] calls of [deal_card] in a row, with the cards dealt, first call first. *)
Fixpoint deal_cards (n : nat) (self : Deck) (g : Random)
  : result (list Card * Deck * Random) :=
  match n with
  | O => Ok ([], self, g)
  | S n' =>
      '(card, self, g) <- deal_card self g ;;
      '(more, self, g) <- deal_cards n' self g ;;
      Ok (card :: more, self, g)
  end.

(** ** The round controller *)

Record BlackjackGame := mkGame {
  deck : Deck;
  player_balance : float;
  player_hand : option Hand;
  dealer_hand : option Hand;
  current_bet : float;
  game_over : bool
}.

Definition set_deck (self : BlackjackGame) (d : Deck) : BlackjackGame :=
  mkGame d (player_balance self) (player_hand self) (dealer_hand self)
         (current_bet self) (game_over self).

Definition set_player_balance (self : BlackjackGame) (b : float) : BlackjackGame :=
  mkGame (deck self) b (player_hand self) (dealer_hand self)
         (current_bet self) (game_over self).

Definition set_player_hand (self : BlackjackGame) (h : option Hand) : BlackjackGame :=
  mkGame (deck self) (player_balance self) h (dealer_hand self)
         (current_bet self) (game_over self).

Definition set_dealer_hand (self : BlackjackGame) (h : option Hand) : BlackjackGame :=
  mkGame (deck self) (player_balance self) (player_hand self) h
         (current_bet self) (game_over self).

Definition set_current_bet (self : BlackjackGame) (b : float) : BlackjackGame :=
  mkGame (deck self) (player_balance self) (player_hand self) (dealer_hand self)
         b (game_over self).

(** [BlackjackGame.__init__]; the balance [100] and the bet [0] of the source
    are the floats of the same value. *)
Definition new_game (balance : float) (g : Random) : BlackjackGame * Random :=
  let (d, g) := new_deck 6 g in
  (mkGame d balance None None 0%float false, g).

(** [BlackjackGame.place_bet]. Each turn of [while True] reads one line; a
    line that [float] refuses ([ValueError]) or a bet out of range goes round
    the loop again. *)
Fixpoint place_bet (self : BlackjackGame) (stdin : list string)
  : result (BlackjackGame * list string) :=
  match stdin with
  | [] => Raise EOFError
  | line :: stdin =>
      match float_of_string line with
      | None => place_bet self stdin
      | Some bet =>
          if (bet <=? 0)%float || (player_balance self <? bet)%float
          then place_bet self stdin
          else
            let self := set_current_bet self bet in
            let self := set_player_balance self (player_balance self - bet)%float in
            Ok (self, stdin)
      end
  end.

(** One turn of the loop of [deal_initial_hands]: a card to the player, then
    a card to the dealer. *)
Definition deal_round (hands : Hand * Hand) (d : Deck) (g : Random)
  : result (Hand * Hand * Deck * Random) :=
  let (ph, dh) := hands in
  '(c, d, g) <- deal_card d g ;;
  let ph := add_card ph c in
  '(c, d, g) <- deal_card d g ;;
  let dh := add_card dh c in
  Ok (ph, dh, d, g).

(** [BlackjackGame.deal_initial_hands]: two fresh hands, and
    [for _ in range(2)] of [deal_round]. *)
Definition deal_initial_hands (self : BlackjackGame) (g : Random)
  : result (BlackjackGame * Random) :=
  '(ph, dh, d, g) <- deal_round (new_hand, new_hand) (deck self) g ;;
  '(ph, dh, d, g) <- deal_round (ph, dh) d g ;;
  Ok (set_dealer_hand (set_player_hand (set_deck self d) (Some ph)) (Some dh), g).

(** [BlackjackGame.check_initial_blackjack]: the flag returned, and the game. *)
Definition check_initial_blackjack (self : BlackjackGame)
  : result (bool * BlackjackGame) :=
  ' ph <- the_hand (player_hand self) ;;
  ' dh <- the_hand (dealer_hand self) ;;
  let player_bj := is_blackjack ph in
  let dealer_bj := is_blackjack dh in
  if player_bj && dealer_bj then
    Ok (true, set_player_balance self (player_balance self + current_bet self)%float)
  else if player_bj then
    Ok (true, set_player_balance self
                (player_balance self + current_bet self * 2.5)%float)
  else if dealer_bj then
    Ok (true, self)
  else
    Ok (false, self).

(** [BlackjackGame.player_turn]. Each turn of [while True] shows the hands,
    returns if the player is bust, and otherwise reads one line. *)
Fixpoint player_turn (self : BlackjackGame) (stdin : list string) (g : Random)
  : result (BlackjackGame * list string * Random) :=
  ' _ <- the_hand (dealer_hand self) ;;
  ' ph <- the_hand (player_hand self) ;;
  if is_bust ph then Ok (self, stdin, g)
  else
    match stdin with
    | [] => Raise EOFError
    | line :: stdin =>
        let choice := upper line in
        if (choice =? "H")%string then
          '(card, d, g) <- deal_card (deck self) g ;;
          player_turn (set_player_hand (set_deck self d) (Some (add_card ph card)))
                      stdin g
        else if (choice =? "S")%string then
          Ok (self, stdin, g)
        else if (choice =? "D")%string then
          if (Z.of_nat (length (hand_cards ph)) =? 2)
             && (current_bet self <=? player_balance self)%float
          then
            let self :=
              set_player_balance self (player_balance self - current_bet self)%float in
            let self := set_current_bet self (current_bet self * 2)%float in
            '(card, d, g) <- deal_card (deck self) g ;;
            Ok (set_player_hand (set_deck self d) (Some (add_card ph card)), stdin, g)
          else player_turn self stdin g
        else player_turn self stdin g
    end.

(** The loop of [dealer_turn]:
    [while self.dealer_hand.get_value() < 17: add_card(deal_card())].
    It ends because the hard total, which the value never falls below, grows
    with every card. *)
Equations? dealer_loop (dh : Hand) (d : Deck) (g : Random)
  : result (Hand * Deck * Random)
  by wf (draws_left dh) lt :=
  dealer_loop dh d g with inspect (get_value dh <? 17) := {
    | exist _ false _ => Ok (dh, d, g)
    | exist _ true Hlt with deal_card d g := {
        | Raise e => Raise e
        | Ok (card, d', g') => dealer_loop (add_card dh card) d' g' } }.
Proof.
  apply Z.ltb_lt in Hlt. unfold draws_left.
  pose proof (hard_total_le_get_value dh).
  pose proof (hard_total_add_card_lt dh card).
  lia.
Qed.

(** The same loop cut off after [fuel] turns: [None] when it has not ended
    within them. *)
Fixpoint dealer_steps (fuel : nat) (dh : Hand) (d : Deck) (g : Random)
  : option (result (Hand * Deck * Random)) :=
  if get_value dh <? 17 then
    match fuel with
    | O => None
    | S fuel =>
        match deal_card d g with
        | Ok (card, d', g') => dealer_steps fuel (add_card dh card) d' g'
        | Raise e => Some (Raise e)
        end
    end
  else Some (Ok (dh, d, g)).

(** [BlackjackGame.dealer_turn] *)
Definition dealer_turn (self : BlackjackGame) (g : Random)
  : result (BlackjackGame * Random) :=
  ' dh <- the_hand (dealer_hand self) ;;
  '(dh, d, g) <- dealer_loop dh (deck self) g ;;
  Ok (set_dealer_hand (set_deck self d) (Some dh), g).

(** [BlackjackGame.determine_winner] *)
Definition determine_winner (self : BlackjackGame) : result BlackjackGame :=
  ' ph <- the_hand (player_hand self) ;;
  ' dh <- the_hand (dealer_hand self) ;;
  let player_value := get_value ph in
  let dealer_value := get_value dh in
  if is_bust ph then
    Ok self
  else if is_bust dh then
    Ok (set_player_balance self (player_balance self + current_bet self * 2)%float)
  else if dealer_value <? player_value then
    Ok (set_player_balance self (player_balance self + current_bet self * 2)%float)
  else if player_value <? dealer_value then
    Ok self
  else
    Ok (set_player_balance self (player_balance self + current_bet self)%float).

(** The last statements of [play_hand], from
    [if not self.player_hand.is_bust(): self.dealer_turn()] on. *)
Definition settle_hand (self : BlackjackGame) (stdin : list string) (g : Random)
  : result (BlackjackGame * list string * Random) :=
  ' ph <- the_hand (player_hand self) ;;
  '(self, g) <- (if negb (is_bust ph) then dealer_turn self g else Ok (self, g)) ;;
  ' self <- determine_winner self ;;
  Ok (self, stdin, g).

(** [BlackjackGame.play_hand] *)
Definition play_hand (self : BlackjackGame) (stdin : list string) (g : Random)
  : result (BlackjackGame * list string * Random) :=
  '(self, stdin) <- place_bet self stdin ;;
  '(self, g) <- deal_initial_hands self g ;;
  '(natural, self) <- check_initial_blackjack self ;;
  if natural : bool then Ok (self, stdin, g)
  else
    '(self, stdin, g) <- player_turn self stdin g ;;
    settle_hand self stdin g.

End Program.

(** ** A runtime to run the program with

    A small stand-in for the interpreter: the shuffle cuts the list at a place
    given by a counter, [float] reads [nan], [inf] and unsigned decimal
    integers, and [upper] is the ASCII one. *)

Module Console.

Definition cut (l : list Card) (g : nat) : list Card * nat :=
  let k := (g mod S (List.length l))%nat in
  (skipn k l ++ firstn k l, S g).

Lemma cut_Permutation l g : Permutation l (fst (cut l g)).
Proof.
  unfold cut. cbn [fst].
  rewrite <- (firstn_skipn (g mod S (List.length l)) l) at 1.
  apply Permutation_app_comm.
Qed.

Definition digit (c : ascii) : option float :=
  match c with
  | "0"%char => Some 0%float | "1"%char => Some 1%float
  | "2"%char => Some 2%float | "3"%char => Some 3%float
  | "4"%char => Some 4%float | "5"%char => Some 5%float
  | "6"%char => Some 6%float | "7"%char => Some 7%float
  | "8"%char => Some 8%float | "9"%char => Some 9%float
  | _ => None
  end.

Fixpoint digits (s : string) (acc : float) : option float :=
  match s with
  | EmptyString => Some acc
  | String c s =>
      match digit c with
      | Some d => digits s (acc * 10 + d)%float
      | None => None
      end
  end.

Definition parse_float (s : string) : option float :=
  if (s =? "nan")%string then Some nan
  else if (s =? "inf")%string then Some infinity
  else if (s =? "")%string then None
  else digits s 0%float.

Definition upper_ascii (c : ascii) : ascii :=
  let n := nat_of_ascii c in
  if ((97 <=? n) && (n <=? 122))%nat then ascii_of_nat (n - 32) else c.

Fixpoint upper_string (s : string) : string :=
  match s with
  | EmptyString => EmptyString
  | String c s => String (upper_ascii c) (upper_string s)
  end.

#[export] Instance runtime : Runtime := {
  Random := nat;
  shuffle := cut;
  shuffle_Permutation := cut_Permutation;
  float_of_string := parse_float;
  upper := upper_string
}.

(** A shoe of the six-deck game with the cards [top] about to be dealt, in
    that order, over twenty others. *)
Definition stacked (top : list Card) : Deck :=
  mkDeck (firstn 20 (fresh_cards 1) ++ rev top) 6.

(** A game before its first round, on such a shoe. *)
Definition table (balance : float) (top : list Card) : BlackjackGame :=
  mkGame (stacked top) balance None None 0%float false.

(** A game in the middle of a round. *)
Definition seated (balance bet : float) (ph dh : list Card) (top : list Card)
  : BlackjackGame :=
  mkGame (stacked top) balance (Some (mkHand ph)) (Some (mkHand dh)) bet false.

End Console.

(** * Properties *)

(** ** Scoring *)

(** The sum of the base values of the cards that are not Aces. *)
Definition non_ace_total (cs : list Card) : Z :=
  base_total (filter (fun card => negb (is_ace (rank card))) cs).

Lemma base_total_split cs :
  base_total cs = non_ace_total cs + 11 * Z.of_nat (count_aces cs).
Proof.
  unfold non_ace_total, count_aces, base_total.
  induction cs as [|card rest IH]; cbn [fold_right filter List.length].
  - reflexivity.
  - assert (Hace : is_ace (rank card) = true -> card_value card = 11).
    { unfold card_value. destruct (rank card); cbn; congruence. }
    destruct (is_ace (rank card)) eqn:E; cbn [negb fold_right List.length].
    + rewrite Hace by reflexivity. lia.
    + lia.
Qed.

(** What the adjusting loop does, said without the loop: it takes 10 off [k]
    times, where [k] is the first count at which the total is no longer above
    21, or the number of Aces if there is no such count. *)
Lemma adjust_spec aces : forall value,
  exists k : nat,
    (k <= aces)%nat
    /\ adjust value aces = value - 10 * Z.of_nat k
    /\ (forall j : nat, (j < k)%nat -> 21 < value - 10 * Z.of_nat j)
    /\ (k = aces \/ value - 10 * Z.of_nat k <= 21).
Proof.
  induction aces as [|aces IH]; intros value; cbn [adjust].
  - exists 0%nat. repeat split; lia.
  - destruct (21 <? value) eqn:E.
    + apply Z.ltb_lt in E.
      destruct (IH (value - 10)) as (k & Hk & Hv & Hbefore & Hstop).
      exists (S k). split; [lia|]. split; [lia|]. split.
      * intros [|j] Hj; [lia|].
        specialize (Hbefore j ltac:(lia)). lia.
      * lia.
    + apply Z.ltb_ge in E.
      exists 0%nat. repeat split; lia.
Qed.

(** There is one such [k] only. *)
Lemma demotions_unique (total : Z) (aces k k' : nat) :
  (k <= aces)%nat ->
  (forall j : nat, (j < k)%nat -> 21 < total - 10 * Z.of_nat j) ->
  (k = aces \/ total - 10 * Z.of_nat k <= 21) ->
  (k' <= aces)%nat ->
  (forall j : nat, (j < k')%nat -> 21 < total - 10 * Z.of_nat j) ->
  (k' = aces \/ total - 10 * Z.of_nat k' <= 21) ->
  k = k'.
Proof.
  intros Hk Hbefore Hstop Hk' Hbefore' Hstop'.
  destruct (Nat.lt_trichotomy k k') as [Hlt|[Heq|Hgt]]; [|exact Heq|].
  - specialize (Hbefore' k Hlt). lia.
  - specialize (Hbefore k' Hgt). lia.
Qed.

(** C1. For every hand, [get_value] is the sum of the cards' base values (an
    Ace 11, a face card 10, a number card its number) less 10 for each of [k]
    Aces, [k] being the least count that brings the total to 21 or below, or
    all the Aces when none does. With exactly one Ace and the other cards
    summing to [s] the value is [s + 11] if that is at most 21 and [s + 1]
    otherwise, and two Aces alone are worth 12. *)
Theorem get_value_spec (self : Hand) :
  let total := base_total (hand_cards self) in
  let aces := count_aces (hand_cards self) in
  (exists k : nat,
      (k <= aces)%nat
      /\ get_value self = total - 10 * Z.of_nat k
      /\ (forall j : nat, (j < k)%nat -> 21 < total - 10 * Z.of_nat j)
      /\ (k = aces \/ total - 10 * Z.of_nat k <= 21))
  /\ (aces = 1%nat ->
      let s := non_ace_total (hand_cards self) in
      get_value self = if s + 11 <=? 21 then s + 11 else s + 1)
  /\ (forall s1 s2,
      hand_cards self = [mkCard s1 ACE; mkCard s2 ACE] -> get_value self = 12).
Proof.
  cbv zeta. repeat split.
  - rewrite get_value_unfold. apply adjust_spec.
  - intros Hone. rewrite get_value_unfold, Hone, base_total_split, Hone.
    cbn [adjust]. change (Z.of_nat 1) with 1.
    destruct (non_ace_total (hand_cards self) + 11 <=? 21) eqn:E.
    + apply Z.leb_le in E.
      destruct (21 <? _) eqn:E'; [apply Z.ltb_lt in E'|]; lia.
    + apply Z.leb_gt in E.
      destruct (21 <? _) eqn:E'; [|apply Z.ltb_ge in E']; lia.
  - intros s1 s2 Hcards. unfold get_value. rewrite Hcards. reflexivity.
Qed.

(** C7. [is_blackjack] holds exactly of the hands of two cards whose value is
    21; a hand of another size is no blackjack whatever its value, as Ace, 9,
    Ace, which is worth 21. *)
Theorem is_blackjack_iff (self : Hand) :
  (is_blackjack self = true
   <-> List.length (hand_cards self) = 2%nat /\ get_value self = 21)
  /\ (List.length (hand_cards self) <> 2%nat -> is_blackjack self = false)
  /\ (forall s1 s2 s3,
      let three := mkHand [mkCard s1 ACE; mkCard s2 NINE; mkCard s3 ACE] in
      get_value three = 21 /\ is_blackjack three = false).
Proof.
  unfold is_blackjack. split; [split|split].
  - intros Hbj. apply andb_true_iff in Hbj. destruct Hbj as [Hlen Hval].
    apply Z.eqb_eq in Hlen, Hval. split; [lia|exact Hval].
  - intros [Hlen Hval]. rewrite Hlen, Hval. reflexivity.
  - intros Hlen. apply andb_false_iff. left. apply Z.eqb_neq. lia.
  - intros s1 s2 s3. split; reflexivity.
Qed.

(** C10 as it is worded fails: a card can lower the value of the hand. Ace
    and 5 are worth 16, on which the dealer draws; with a 9 the Ace falls to
    1 and the hand is worth 15. *)
Lemma hit_can_lower_value :
  (get_value (mkHand [mkCard SPADES ACE; mkCard HEARTS FIVE]) <? 17) = true
  /\ get_value (mkHand [mkCard SPADES ACE; mkCard HEARTS FIVE]) = 16
  /\ get_value (add_card (mkHand [mkCard SPADES ACE; mkCard HEARTS FIVE])
                         (mkCard CLUBS NINE)) = 15
  /\ (get_value (mkHand [mkCard SPADES ACE; mkCard HEARTS FIVE]) + 1
      <=? get_value (add_card (mkHand [mkCard SPADES ACE; mkCard HEARTS FIVE])
                              (mkCard CLUBS NINE)))
     = false.
Proof. repeat split. Qed.

(** ** The shoe *)

Section DeckProperties.

Context {RT : Runtime}.

Lemma pop_None {A : Type} (l : list A) : pop l = None <-> l = [].
Proof.
  destruct l as [|x l]; cbn [pop].
  - tauto.
  - destruct (pop l) as [[front y]|]; split; discriminate.
Qed.

Lemma pop_app_last {A : Type} (front : list A) (x : A) :
  pop (front ++ [x]) = Some (front, x).
Proof.
  induction front as [|a front IH]; cbn [app pop].
  - reflexivity.
  - now rewrite IH.
Qed.

Lemma pop_Some {A : Type} (l : list A) : forall front x,
  pop l = Some (front, x) <-> l = front ++ [x].
Proof.
  intros front x. split.
  - revert front. induction l as [|a l IH]; intros front; cbn [pop].
    + discriminate.
    + destruct (pop l) as [[front' y]|] eqn:E.
      * intros [= <- <-]. cbn [app]. f_equal. now apply IH.
      * apply pop_None in E. subst l. now intros [= <- <-].
  - intros ->. apply pop_app_last.
Qed.

Lemma length_full_deck : List.length full_deck = 52%nat.
Proof. reflexivity. Qed.

Lemma length_fresh_cards n :
  List.length (fresh_cards n) = (52 * Z.to_nat n)%nat.
Proof.
  unfold fresh_cards.
  induction (Z.to_nat n) as [|k IH]; cbn [repeat concat].
  - reflexivity.
  - rewrite length_app, IH, length_full_deck. lia.
Qed.

(** [reset] leaves a shuffle of [num_decks] full sets, whatever was there. *)
Lemma reset_spec (self : Deck) (g : Random) :
  let (self', g') := reset self g in
  Permutation (fresh_cards (num_decks self)) (cards self')
  /\ num_decks self' = num_decks self
  /\ g' = snd (shuffle (fresh_cards (num_decks self)) g).
Proof.
  unfold reset.
  pose proof (shuffle_Permutation (fresh_cards (num_decks self)) g) as Hperm.
  destruct (shuffle (fresh_cards (num_decks self)) g) as [cs g'].
  cbn [fst snd cards num_decks] in *. auto.
Qed.

(** One call of [deal_card] on a shoe of at least one deck. *)
Lemma deal_card_spec (self : Deck) (g : Random) :
  1 <= num_decks self ->
  exists card self' g',
    deal_card self g = Ok (card, self', g')
    /\ num_decks self' = num_decks self
    /\ (9 <= List.length (cards self'))%nat
    /\ if Z.of_nat (List.length (cards self)) <? 10
       then Permutation (fresh_cards (num_decks self)) (cards self' ++ [card])
            /\ g' = snd (shuffle (fresh_cards (num_decks self)) g)
       else cards self = cards self' ++ [card] /\ g' = g.
Proof.
  intros Hdecks. unfold deal_card.
  destruct (Z.of_nat (List.length (cards self)) <? 10) eqn:Elow.
  - pose proof (reset_spec self g) as Hreset.
    destruct (reset self g) as [fresh g'].
    destruct Hreset as (Hperm & Hnum & Hg).
    pose proof (Permutation_length Hperm) as Hlen.
    rewrite length_fresh_cards in Hlen.
    destruct (pop (cards fresh)) as [[front card]|] eqn:Epop.
    + apply pop_Some in Epop.
      exists card, (mkDeck front (num_decks fresh)), g'.
      cbn [cards num_decks]. rewrite <- Epop.
      rewrite Epop, length_app in Hlen. cbn [List.length] in Hlen.
      repeat split; auto; lia.
    + apply pop_None in Epop. rewrite Epop in Hlen. cbn [List.length] in Hlen. lia.
  - apply Z.ltb_ge in Elow.
    destruct (pop (cards self)) as [[front card]|] eqn:Epop.
    + apply pop_Some in Epop.
      exists card, (mkDeck front (num_decks self)), g.
      cbn [cards num_decks].
      rewrite Epop, length_app in Elow. cbn [List.length] in Elow.
      repeat split; auto; lia.
    + apply pop_None in Epop. rewrite Epop in Elow. cbn [List.length] in Elow. lia.
Qed.

(** C2. On a shoe of at least one deck [deal_card] never pops an empty list,
    however many calls are made: with fewer than 10 cards left it first
    rebuilds the shoe as a shuffle of [num_decks] full sets of 52, and then
    takes the last card; otherwise it takes the last card of the shoe as it
    is. Every call returns a card, and the count of cards left, a length, is
    never negative. *)
Theorem deal_card_never_fails (self : Deck) (g : Random) (n : nat) :
  1 <= num_decks self ->
  (exists card self' g',
      deal_card self g = Ok (card, self', g')
      /\ num_decks self' = num_decks self
      /\ if Z.of_nat (List.length (cards self)) <? 10
         then Permutation (fresh_cards (num_decks self)) (cards self' ++ [card])
              /\ List.length (cards self' ++ [card])
                 = (52 * Z.to_nat (num_decks self))%nat
              /\ g' = snd (shuffle (fresh_cards (num_decks self)) g)
         else cards self = cards self' ++ [card] /\ g' = g)
  /\ (exists dealt self' g',
      deal_cards n self g = Ok (dealt, self', g')
      /\ List.length dealt = n
      /\ num_decks self' = num_decks self
      /\ 0 <= Z.of_nat (List.length (cards self'))).
Proof.
  intros Hdecks. split.
  - destruct (deal_card_spec self g Hdecks) as (card & self' & g' & Hdeal & Hnum & _ & Hcase).
    exists card, self', g'. repeat split; auto.
    destruct (Z.of_nat (List.length (cards self)) <? 10).
    + destruct Hcase as [Hperm Hg]. repeat split; auto.
      rewrite <- (Permutation_length Hperm). apply length_fresh_cards.
    + exact Hcase.
  - revert self g Hdecks.
    induction n as [|n IH]; intros self g Hdecks; cbn [deal_cards].
    + exists [], self, g. repeat split; lia.
    + destruct (deal_card_spec self g Hdecks) as (card & self1 & g1 & -> & Hnum & _).
      cbn [bind].
      destruct (IH self1 g1 ltac:(lia)) as (more & self2 & g2 & -> & Hlen & Hnum2 & _).
      cbn [bind]. exists (card :: more), self2, g2.
      cbn [List.length]. repeat split; lia.
Qed.

End DeckProperties.

(** ** Comparisons and differences of binary64 numbers *)

Lemma Prim2SF_nan : Prim2SF nan = S754_nan.
Proof. reflexivity. Qed.

Lemma SFcompare_nan_r f : SFcompare f S754_nan = None.
Proof. now destruct f. Qed.

(** No number is below NaN, and NaN is at most no number. *)
Lemma ltb_nan_r (x : float) : (x <? nan)%float = false.
Proof.
  rewrite ltb_spec, Prim2SF_nan. unfold SFltb. now rewrite SFcompare_nan_r.
Qed.

Lemma leb_nan_l (x : float) : (nan <=? x)%float = false.
Proof.
  rewrite leb_spec, Prim2SF_nan. reflexivity.
Qed.

Lemma leb_nan_r (x : float) : (x <=? nan)%float = false.
Proof.
  rewrite leb_spec, Prim2SF_nan. unfold SFleb. now rewrite SFcompare_nan_r.
Qed.

(** Taking NaN away from a number leaves NaN. *)
Lemma sub_nan_r (x : float) : (x - nan)%float = nan.
Proof.
  apply Prim2SF_inj. rewrite sub_spec, Prim2SF_nan.
  unfold SF64sub, SFsub. now destruct (Prim2SF x).
Qed.

(** The product of two binary64 numbers does not depend on their order:
    [bet * 2] is [2 * bet]. *)
Lemma float_mul_comm (x y : float) : (x * y)%float = (y * x)%float.
Proof.
  apply Prim2SF_inj. rewrite !mul_spec. unfold SF64mul, SFmul.
  destruct (Prim2SF x) as [sx|sx| |sx mx ex], (Prim2SF y) as [sy|sy| |sy my ey];
    try reflexivity; try (now rewrite xorb_comm).
  now rewrite xorb_comm, Pos.mul_comm, Z.add_comm.
Qed.

Lemma is_nan_spec (x : float) : is_nan x = true <-> Prim2SF x = S754_nan.
Proof.
  unfold is_nan. rewrite eqb_spec. unfold SFeqb.
  destruct (Prim2SF x) as [s|s| |s m e]; cbn.
  - split; discriminate.
  - destruct s; split; discriminate.
  - tauto.
  - destruct s; rewrite Z.compare_refl, Pos.compare_cont_refl; split; discriminate.
Qed.

Lemma SFcompare_antisym f1 f2 c :
  SFcompare f1 f2 = Some c -> SFcompare f2 f1 = Some (CompOpp c).
Proof.
  destruct f1 as [s1|s1| |s1 m1 e1], f2 as [s2|s2| |s2 m2 e2]; cbn;
    try discriminate; intros [= <-];
    try (destruct s1; reflexivity); try (destruct s2; reflexivity);
    try (destruct s1, s2; reflexivity).
  destruct s1, s2; cbn; try reflexivity;
    rewrite (Z.compare_antisym e1 e2);
    destruct (e1 ?= e2)%Z; cbn; try reflexivity;
    rewrite ?CompOpp_involutive, ?Pos.compare_cont_antisym; reflexivity.
Qed.

(** Of two numbers, neither a NaN, one is below the other or at most it. *)
Lemma ltb_false_leb (x y : float) :
  is_nan x = false -> is_nan y = false ->
  (x <? y)%float = false -> (y <=? x)%float = true.
Proof.
  intros Hx Hy. rewrite ltb_spec, leb_spec. unfold SFltb, SFleb.
  destruct (SFcompare (Prim2SF x) (Prim2SF y)) as [c|] eqn:E.
  - rewrite (SFcompare_antisym _ _ _ E). now destruct c.
  - exfalso.
    assert (Prim2SF x <> S754_nan) as Hx'
      by (intros H; apply is_nan_spec in H; congruence).
    assert (Prim2SF y <> S754_nan) as Hy'
      by (intros H; apply is_nan_spec in H; congruence).
    destruct (Prim2SF x) as [s1|s1| |s1 m1 e1], (Prim2SF y) as [s2|s2| |s2 m2 e2];
      cbn in E; congruence.
Qed.

Lemma leb_false_ltb (x y : float) :
  is_nan x = false -> is_nan y = false ->
  (x <=? y)%float = false -> (y <? x)%float = true.
Proof.
  intros Hx Hy. rewrite ltb_spec, leb_spec. unfold SFltb, SFleb.
  destruct (SFcompare (Prim2SF x) (Prim2SF y)) as [c|] eqn:E.
  - rewrite (SFcompare_antisym _ _ _ E). now destruct c.
  - exfalso.
    assert (Prim2SF x <> S754_nan) as Hx'
      by (intros H; apply is_nan_spec in H; congruence).
    assert (Prim2SF y <> S754_nan) as Hy'
      by (intros H; apply is_nan_spec in H; congruence).
    destruct (Prim2SF x) as [s1|s1| |s1 m1 e1], (Prim2SF y) as [s2|s2| |s2 m2 e2];
      cbn in E; congruence.
Qed.

(** ** The round *)

Section GameProperties.

Context {RT : Runtime}.

(** The loop of the dealer, one turn unrolled. *)
Lemma dealer_loop_step (dh : Hand) (d : Deck) (g : Random) :
  dealer_loop dh d g
  = if get_value dh <? 17
    then '(card, d', g') <- deal_card d g ;; dealer_loop (add_card dh card) d' g'
    else Ok (dh, d, g).
Proof.
  rewrite dealer_loop_unfold_eq. unfold dealer_loop_unfold.
  assert (Hclause : forall test : {y : bool | (get_value dh <? 17) = y},
             dealer_loop_unfold_clause_1 dh test d g
             = if proj1_sig test
               then '(card, d', g') <- deal_card d g ;;
                    dealer_loop (add_card dh card) d' g'
               else Ok (dh, d, g)).
  { intros [[|] E]; cbn.
    - destruct (deal_card d g) as [[[card d'] g']|e]; reflexivity.
    - reflexivity. }
  apply (Hclause (inspect _)).
Qed.

Lemma hard_total_nonneg (self : Hand) : 0 <= hard_total self.
Proof.
  destruct self as [cs]. unfold hard_total. cbn [hand_cards].
  rewrite base_total_split.
  assert (0 <= non_ace_total cs); [|lia].
  unfold non_ace_total, base_total.
  induction cs as [|card rest IH]; cbn [filter fold_right]; [lia|].
  assert (2 <= card_value card).
  { unfold card_value. destruct (rank card); cbn [rank_value]; lia. }
  destruct (is_ace (rank card)); cbn [negb fold_right]; lia.
Qed.

Lemma draws_left_le_17 (self : Hand) : (draws_left self <= 17)%nat.
Proof.
  unfold draws_left. pose proof (hard_total_nonneg self). lia.
Qed.

(** With [draws_left] turns the cut-off loop has ended, and gives what
    [dealer_loop] gives. *)
Lemma dealer_steps_enough (fuel : nat) : forall dh d g,
  (draws_left dh <= fuel)%nat ->
  dealer_steps fuel dh d g = Some (dealer_loop dh d g).
Proof.
  induction fuel as [|fuel IH]; intros dh d g Hfuel;
    rewrite dealer_loop_step; cbn [dealer_steps];
    destruct (get_value dh <? 17) eqn:Elt; try reflexivity;
    apply Z.ltb_lt in Elt; pose proof (hard_total_le_get_value dh);
    unfold draws_left in Hfuel.
  - lia.
  - destruct (deal_card d g) as [[[card d'] g']|e]; cbn [bind]; [|reflexivity].
    apply IH. unfold draws_left.
    pose proof (hard_total_add_card_lt dh card). lia.
Qed.

(** What a run of the loop that returns leaves behind. *)
Lemma dealer_loop_result (fuel : nat) : forall dh d g dh' d' g',
  (draws_left dh <= fuel)%nat ->
  dealer_loop dh d g = Ok (dh', d', g') ->
  exists drawn,
    hand_cards dh' = hand_cards dh ++ drawn
    /\ (List.length drawn <= draws_left dh)%nat
    /\ 17 <= get_value dh'
    /\ num_decks d' = num_decks d.
Proof.
  induction fuel as [|fuel IH]; intros dh d g dh' d' g' Hfuel;
    rewrite dealer_loop_step;
    destruct (get_value dh <? 17) eqn:Elt.
  - apply Z.ltb_lt in Elt. pose proof (hard_total_le_get_value dh).
    unfold draws_left in Hfuel. lia.
  - intros [= <- <- <-]. apply Z.ltb_ge in Elt.
    exists []. rewrite app_nil_r. cbn [List.length]. repeat split; lia.
  - apply Z.ltb_lt in Elt.
    unfold deal_card.
    destruct (if Z.of_nat (List.length (cards d)) <? 10 then reset d g else (d, g))
      as [d1 g1] eqn:Ereset.
    assert (Hnum : num_decks d1 = num_decks d).
    { destruct (Z.of_nat (List.length (cards d)) <? 10).
      - pose proof (reset_spec d g) as Hr. rewrite Ereset in Hr. tauto.
      - now injection Ereset as <- _. }
    destruct (pop (cards d1)) as [[front card]|]; cbn [bind]; [|discriminate].
    intros Hloop.
    pose proof (hard_total_le_get_value dh).
    pose proof (hard_total_add_card_lt dh card) as Hgrow.
    apply IH in Hloop; [|unfold draws_left in *; lia].
    destruct Hloop as (drawn & Hcards & Hlen & Hval & Hnum').
    exists (card :: drawn). cbn [add_card hand_cards] in Hcards.
    rewrite <- app_assoc in Hcards. cbn [app] in Hcards.
    cbn [num_decks] in Hnum'. cbn [List.length].
    unfold draws_left in *. repeat split; try assumption; lia.
  - intros [= <- <- <-]. apply Z.ltb_ge in Elt.
    exists []. rewrite app_nil_r. cbn [List.length]. repeat split; lia.
Qed.

(** C10, as the program has it. [dealer_turn] ends for every shoe and every
    dealer hand. A card can leave [get_value] where it was or lower it (an
    Ace counted 11 becomes 1), so the value is no measure; the hard total is:
    each card adds at least 1 to it, and the value is never below it. The
    loop therefore ends within [17 - hard_total] turns, 17 at most, and a run
    that returns leaves the hand with the cards drawn and a value of 17 or
    more. *)
Theorem dealer_turn_terminates (dh : Hand) (d : Deck) (g : Random) :
  (forall card, hard_total dh + 1 <= hard_total (add_card dh card))
  /\ hard_total dh <= get_value dh
  /\ (draws_left dh <= 17)%nat
  /\ dealer_steps (draws_left dh) dh d g = Some (dealer_loop dh d g)
  /\ dealer_steps 17 dh d g = Some (dealer_loop dh d g)
  /\ match dealer_loop dh d g with
     | Ok (dh', _, _) =>
         exists drawn,
           hand_cards dh' = hand_cards dh ++ drawn
           /\ (List.length drawn <= draws_left dh)%nat
           /\ 17 <= get_value dh'
     | Raise e => e = IndexError
     end.
Proof.
  split; [apply hard_total_add_card_lt|].
  split; [apply hard_total_le_get_value|].
  split; [apply draws_left_le_17|].
  split; [now apply dealer_steps_enough|].
  split; [apply dealer_steps_enough, draws_left_le_17|].
  destruct (dealer_loop dh d g) as [[[dh' d'] g']|e] eqn:Eloop.
  - destruct (dealer_loop_result _ _ _ _ _ _ _ (le_n _) Eloop)
      as (drawn & Hcards & Hlen & Hval & _).
    now exists drawn.
  - pose proof (dealer_steps_enough _ dh d g (le_n _)) as Hsteps.
    rewrite Eloop in Hsteps. clear Eloop.
    revert Hsteps. generalize (draws_left dh) as fuel. revert dh d g.
    intros dh d g fuel. revert dh d g.
    induction fuel as [|fuel IH]; intros dh d g; cbn [dealer_steps];
      destruct (get_value dh <? 17); try discriminate.
    unfold deal_card.
    destruct (if Z.of_nat (List.length (cards d)) <? 10 then reset d g else (d, g))
      as [d1 g1].
    destruct (pop (cards d1)) as [[front card]|].
    + apply IH.
    + now intros [= <-].
Qed.

(** *** Settlement *)

(** Closes the cases of a settlement that the tests already made rule out. *)
Ltac settle_cases :=
  repeat split; intros;
  try congruence; try lia;
  try match goal with
      | H : _ \/ _ |- _ => destruct H; [congruence | lia]
      end.

(** C3. [determine_winner], with [B] the balance after the bet [X] was taken
    off it, touches the balance only: a bust player keeps [B], whatever the
    dealer has; otherwise a bust dealer or a higher player value gives
    [B + 2 * X], a lower player value leaves [B], and equal values give
    [B + X]. Sums and products are those of the floats the program computes
    with. *)
Theorem determine_winner_spec (self : BlackjackGame) (ph dh : Hand) :
  player_hand self = Some ph ->
  dealer_hand self = Some dh ->
  let B := player_balance self in
  let X := current_bet self in
  exists balance,
    determine_winner self = Ok (set_player_balance self balance)
    /\ (is_bust ph = true -> balance = B)
    /\ (is_bust ph = false ->
        is_bust dh = true \/ get_value dh < get_value ph ->
        balance = (B + 2 * X)%float)
    /\ (is_bust ph = false -> is_bust dh = false ->
        get_value ph < get_value dh -> balance = B)
    /\ (is_bust ph = false -> is_bust dh = false ->
        get_value ph = get_value dh -> balance = (B + X)%float).
Proof.
  intros Hph Hdh B X. unfold determine_winner.
  rewrite Hph, Hdh. cbn [the_hand bind].
  pose proof (float_mul_comm X 2) as Hdouble.
  assert (Hsame : Ok self = Ok (set_player_balance self B)) by now destruct self.
  destruct (is_bust ph) eqn:Ep.
  { exists B. split; [exact Hsame|]. settle_cases. }
  destruct (is_bust dh) eqn:Ed.
  { exists (B + X * 2)%float. split; [reflexivity|]. settle_cases. }
  destruct (get_value dh <? get_value ph) eqn:Egt.
  { apply Z.ltb_lt in Egt. exists (B + X * 2)%float.
    split; [reflexivity|]. settle_cases. }
  apply Z.ltb_ge in Egt.
  destruct (get_value ph <? get_value dh) eqn:Elt.
  { apply Z.ltb_lt in Elt. exists B. split; [exact Hsame|]. settle_cases. }
  apply Z.ltb_ge in Elt. exists (B + X)%float.
  split; [reflexivity|]. settle_cases.
Qed.

(** *** Double down *)

(** C5. When the player, not bust, answers [D]: with exactly two cards in
    hand and a balance of at least the bet, the bet is taken off the balance
    once more, the bet is doubled, one card goes to the player's hand, and the
    turn is over, whatever that card makes of the hand; in every other case
    the loop goes round again with the game as it was. *)
Theorem double_down_spec (self : BlackjackGame) (line : string)
    (stdin : list string) (g : Random) (ph dh : Hand) :
  player_hand self = Some ph ->
  dealer_hand self = Some dh ->
  is_bust ph = false ->
  upper line = "D"%string ->
  let B := player_balance self in
  let X := current_bet self in
  (List.length (hand_cards ph) = 2%nat /\ (X <=? B)%float = true ->
   forall card d' g',
     deal_card (deck self) g = Ok (card, d', g') ->
     player_turn self (line :: stdin) g
     = Ok (mkGame d' (B - X)%float (Some (add_card ph card)) (Some dh)
                  (X * 2)%float (game_over self),
           stdin, g'))
  /\ (~ (List.length (hand_cards ph) = 2%nat /\ (X <=? B)%float = true) ->
      player_turn self (line :: stdin) g = player_turn self stdin g).
Proof.
  intros Hph Hdh Hbust Hline B X.
  assert (Hturn : player_turn self (line :: stdin) g
          = if (Z.of_nat (List.length (hand_cards ph)) =? 2) && (X <=? B)%float
            then
              '(card, d, g) <- deal_card (deck self) g ;;
              Ok (mkGame d (B - X)%float (Some (add_card ph card)) (Some dh)
                         (X * 2)%float (game_over self), stdin, g)
            else player_turn self stdin g).
  { cbn [player_turn]. rewrite Hph, Hdh. cbn [the_hand bind].
    rewrite Hbust, Hline. cbn [String.eqb Ascii.eqb Bool.eqb].
    fold B X.
    destruct ((Z.of_nat (List.length (hand_cards ph)) =? 2) && (X <=? B)%float);
      [|reflexivity].
    destruct self; cbn in *. subst. reflexivity. }
  rewrite Hturn. split.
  - intros [Hlen Hle] card d' g' Hdeal.
    rewrite Hlen, Hle, Hdeal. reflexivity.
  - intros Hno.
    destruct (Z.of_nat (List.length (hand_cards ph)) =? 2) eqn:Elen; [|reflexivity].
    destruct (X <=? B)%float eqn:Ele; [|reflexivity].
    exfalso. apply Hno. apply Z.eqb_eq in Elen. split; [lia|reflexivity].
Qed.

(** *** Inputs that are turned down *)

(** A line that [float] refuses, and a bet that is zero, negative or above
    the balance, send [place_bet] round its loop with the game as it was. *)
Lemma place_bet_rejected (self : BlackjackGame) (line : string) (stdin : list string) :
  (float_of_string line = None
   \/ exists bet, float_of_string line = Some bet
        /\ ((bet <=? 0)%float = true \/ (player_balance self <? bet)%float = true)) ->
  place_bet self (line :: stdin) = place_bet self stdin.
Proof.
  intros [Hbad|(bet & Hbet & Hrange)]; cbn [place_bet].
  - now rewrite Hbad.
  - rewrite Hbet. destruct Hrange as [-> | ->]; [reflexivity|].
    now rewrite orb_true_r.
Qed.

(** A bet that [place_bet] takes is one of the lines read, it is neither at
    most zero nor above the balance, and it is what the call sets as the bet
    and takes off the balance. *)
Lemma place_bet_accepted (stdin : list string) : forall self self' stdin',
  place_bet self stdin = Ok (self', stdin') ->
  exists skipped line bet,
    stdin = skipped ++ line :: stdin'
    /\ float_of_string line = Some bet
    /\ (bet <=? 0)%float = false
    /\ (player_balance self <? bet)%float = false
    /\ self' = set_player_balance (set_current_bet self bet)
                                  (player_balance self - bet)%float.
Proof.
  induction stdin as [|line stdin IH]; intros self self' stdin'; cbn [place_bet].
  - discriminate.
  - assert (Hloop : place_bet self stdin = Ok (self', stdin') ->
              exists skipped line0 bet,
                line :: stdin = skipped ++ line0 :: stdin'
                /\ float_of_string line0 = Some bet
                /\ (bet <=? 0)%float = false
                /\ (player_balance self <? bet)%float = false
                /\ self' = set_player_balance (set_current_bet self bet)
                                              (player_balance self - bet)%float).
    { intros H. destruct (IH _ _ _ H) as (skipped & line0 & bet & -> & Hrest).
      now exists (line :: skipped), line0, bet. }
    destruct (float_of_string line) as [bet|] eqn:Ebet; [|exact Hloop].
    destruct (bet <=? 0)%float eqn:Ele; [exact Hloop|].
    destruct (player_balance self <? bet)%float eqn:Elt; [exact Hloop|].
    cbn [orb]. intros [= <- <-].
    exists [], line, bet. repeat split; assumption.
Qed.

(** X18. For a bet and a balance that are numbers, a bet that [place_bet]
    takes is above zero and at most the balance. *)
Lemma place_bet_in_range (stdin : list string) self self' stdin' :
  place_bet self stdin = Ok (self', stdin') ->
  is_nan (player_balance self) = false ->
  is_nan (current_bet self') = false ->
  (0 <? current_bet self')%float = true
  /\ (current_bet self' <=? player_balance self)%float = true.
Proof.
  intros Hbet HB HX.
  destruct (place_bet_accepted _ _ _ _ Hbet)
    as (skipped & line & bet & _ & _ & Hpos & Hle & ->).
  cbn [current_bet set_player_balance set_current_bet] in *.
  split.
  - now apply leb_false_ltb.
  - now apply ltb_false_leb.
Qed.

(** An answer that is none of [H], [S] and [D] sends [player_turn] round its
    loop with the game as it was. *)
Lemma player_turn_unrecognized (self : BlackjackGame) (line : string)
    (stdin : list string) (g : Random) (ph dh : Hand) :
  player_hand self = Some ph ->
  dealer_hand self = Some dh ->
  is_bust ph = false ->
  upper line <> "H"%string -> upper line <> "S"%string -> upper line <> "D"%string ->
  player_turn self (line :: stdin) g = player_turn self stdin g.
Proof.
  intros Hph Hdh Hbust HH HS HD.
  apply String.eqb_neq in HH, HS, HD.
  cbn [player_turn]. rewrite Hph, Hdh. cbn [the_hand bind].
  now rewrite Hbust, HH, HS, HD.
Qed.

(** The other answers: [H] draws a card and goes round the loop, [S] returns. *)
Lemma player_turn_hit (self : BlackjackGame) (line : string)
    (stdin : list string) (g : Random) (ph dh : Hand) :
  player_hand self = Some ph ->
  dealer_hand self = Some dh ->
  is_bust ph = false ->
  upper line = "H"%string ->
  player_turn self (line :: stdin) g
  = '(card, d, g) <- deal_card (deck self) g ;;
    player_turn (set_player_hand (set_deck self d) (Some (add_card ph card))) stdin g.
Proof.
  intros Hph Hdh Hbust Hline.
  cbn [player_turn]. rewrite Hph, Hdh. cbn [the_hand bind].
  now rewrite Hbust, Hline.
Qed.

Lemma player_turn_stand (self : BlackjackGame) (line : string)
    (stdin : list string) (g : Random) (ph dh : Hand) :
  player_hand self = Some ph ->
  dealer_hand self = Some dh ->
  is_bust ph = false ->
  upper line = "S"%string ->
  player_turn self (line :: stdin) g = Ok (self, stdin, g).
Proof.
  intros Hph Hdh Hbust Hline.
  cbn [player_turn]. rewrite Hph, Hdh. cbn [the_hand bind].
  now rewrite Hbust, Hline.
Qed.

(** A bust player is asked nothing: the turn returns with the input unread. *)
Lemma player_turn_bust (self : BlackjackGame) (stdin : list string) (g : Random)
    (ph dh : Hand) :
  player_hand self = Some ph ->
  dealer_hand self = Some dh ->
  is_bust ph = true ->
  player_turn self stdin g = Ok (self, stdin, g).
Proof.
  intros Hph Hdh Hbust.
  destruct stdin; cbn [player_turn]; rewrite Hph, Hdh; cbn [the_hand bind];
    now rewrite Hbust.
Qed.

(** *** A bet that is not a number *)

(** Both tests of [place_bet] are comparisons with the bet, and a comparison
    with NaN is false; the difference of the balance and NaN is NaN. *)
Lemma place_bet_nan (self : BlackjackGame) (line : string) (stdin : list string) :
  float_of_string line = Some nan ->
  place_bet self (line :: stdin)
  = Ok (set_player_balance (set_current_bet self nan) nan, stdin).
Proof.
  intros Hnan. cbn [place_bet]. rewrite Hnan, leb_nan_l, ltb_nan_r. cbn [orb].
  cbn [set_current_bet player_balance]. now rewrite sub_nan_r.
Qed.

(** C8, at a line that [float] reads as NaN (the line [nan], for one).
    [place_bet] takes the bet, though it is neither above zero nor at most
    the balance, and the bet and the balance are NaN from then on. *)
Theorem place_bet_accepts_nan (self : BlackjackGame) (line : string)
    (stdin : list string) :
  float_of_string line = Some nan ->
  exists self',
    place_bet self (line :: stdin) = Ok (self', stdin)
    /\ current_bet self' = nan
    /\ (0 <? current_bet self')%float = false
    /\ (current_bet self' <=? player_balance self)%float = false.
Proof.
  intros Hnan.
  exists (set_player_balance (set_current_bet self nan) nan).
  split; [now apply place_bet_nan|].
  cbn [current_bet set_player_balance set_current_bet].
  split; [reflexivity|]. split; [reflexivity|]. apply leb_nan_l.
Qed.

(** C9, at the same line. From a balance that is at least zero [place_bet]
    leaves one that is not: it is NaN. *)
Theorem place_bet_nan_balance (self : BlackjackGame) (line : string)
    (stdin : list string) :
  (0 <=? player_balance self)%float = true ->
  float_of_string line = Some nan ->
  exists self',
    place_bet self (line :: stdin) = Ok (self', stdin)
    /\ (0 <=? player_balance self')%float = false
    /\ is_nan (player_balance self') = true.
Proof.
  intros _ Hnan.
  exists (set_player_balance (set_current_bet self nan) nan).
  split; [now apply place_bet_nan|]. split; reflexivity.
Qed.

(** *** The initial deal and the naturals *)

(** The four cards of the initial deal go to the player, the dealer, the
    player and the dealer; the money is not touched. *)
Lemma deal_initial_hands_spec (self self' : BlackjackGame) (g g' : Random) :
  deal_initial_hands self g = Ok (self', g') ->
  exists c1 c2 c3 c4 d,
    self' = mkGame d (player_balance self) (Some (mkHand [c1; c3]))
                   (Some (mkHand [c2; c4])) (current_bet self) (game_over self)
    /\ deal_cards 4 (deck self) g = Ok ([c1; c2; c3; c4], d, g').
Proof.
  unfold deal_initial_hands, deal_round. cbn [deal_cards].
  destruct (deal_card (deck self) g) as [[[c1 d1] g1]|e]; cbn [bind]; [|discriminate].
  destruct (deal_card d1 g1) as [[[c2 d2] g2]|e]; cbn [bind]; [|discriminate].
  destruct (deal_card d2 g2) as [[[c3 d3] g3]|e]; cbn [bind]; [|discriminate].
  destruct (deal_card d3 g3) as [[[c4 d4] g4]|e]; cbn [bind]; [|discriminate].
  intros [= <- <-]. now exists c1, c2, c3, c4, d4.
Qed.

(** C4. The check for naturals comes right after the initial deal, before
    any line of the player's turn is read. With [B] the balance and [X] the
    bet as [place_bet] left them: two naturals give [B + X] and end the round;
    a natural of the player alone gives [B + 2.5 * X] and ends the round; a
    natural of the dealer alone leaves [B] and ends the round; with no natural
    the round goes on with the player's turn. A round that ends here has read
    no further input and drawn no further card. *)
Theorem natural_blackjack_check (self : BlackjackGame) (stdin : list string)
    (g : Random) (self1 : BlackjackGame) (stdin1 : list string)
    (self2 : BlackjackGame) (g2 : Random) :
  place_bet self stdin = Ok (self1, stdin1) ->
  deal_initial_hands self1 g = Ok (self2, g2) ->
  let B := player_balance self1 in
  let X := current_bet self1 in
  exists ph dh,
    player_hand self2 = Some ph /\ dealer_hand self2 = Some dh
    /\ List.length (hand_cards ph) = 2%nat /\ List.length (hand_cards dh) = 2%nat
    /\ player_balance self2 = B /\ current_bet self2 = X
    /\ (is_blackjack ph = true -> is_blackjack dh = true ->
        play_hand self stdin g
        = Ok (set_player_balance self2 (B + X)%float, stdin1, g2))
    /\ (is_blackjack ph = true -> is_blackjack dh = false ->
        play_hand self stdin g
        = Ok (set_player_balance self2 (B + 2.5 * X)%float, stdin1, g2))
    /\ (is_blackjack ph = false -> is_blackjack dh = true ->
        play_hand self stdin g = Ok (self2, stdin1, g2))
    /\ (is_blackjack ph = false -> is_blackjack dh = false ->
        play_hand self stdin g
        = '(self3, stdin3, g3) <- player_turn self2 stdin1 g2 ;;
          settle_hand self3 stdin3 g3).
Proof.
  intros Hbet Hdeal B X.
  destruct (deal_initial_hands_spec _ _ _ _ Hdeal) as (c1 & c2 & c3 & c4 & d & Hself2 & _).
  exists (mkHand [c1; c3]), (mkHand [c2; c4]).
  unfold play_hand. rewrite Hbet. cbn [bind]. rewrite Hdeal. cbn [bind].
  unfold check_initial_blackjack. subst self2.
  cbn [player_hand dealer_hand the_hand bind hand_cards List.length
       player_balance current_bet].
  fold B X. rewrite (float_mul_comm X 2.5).
  repeat split; intros Hp Hd; rewrite Hp, Hd; reflexivity.
Qed.

(** *** The dealer's turn *)

Lemma dealer_turn_unfold (self : BlackjackGame) (g : Random) (dh : Hand) :
  dealer_hand self = Some dh ->
  dealer_turn self g
  = if get_value dh <? 17
    then '(card, d, g') <- deal_card (deck self) g ;;
         dealer_turn (set_dealer_hand (set_deck self d) (Some (add_card dh card))) g'
    else Ok (self, g).
Proof.
  intros Hdh. unfold dealer_turn. rewrite Hdh. cbn [the_hand bind].
  rewrite dealer_loop_step.
  destruct (get_value dh <? 17).
  - destruct (deal_card (deck self) g) as [[[card d] g']|e]; cbn [bind]; [|reflexivity].
    cbn [dealer_hand set_dealer_hand set_deck the_hand bind deck].
    destruct (dealer_loop (add_card dh card) d g') as [[[dh' d'] g'']|e];
      reflexivity.
  - cbn [bind]. destruct self; cbn in *. now subst.
Qed.

(** C6. The dealer's turn is left out when the player is bust: the round
    goes straight to the settlement, with the dealer's hand and the shoe as
    they were. Otherwise the dealer draws a card while the hand is worth less
    than 17 and stops at 17 or more, with no rule of its own for an Ace
    counted 11: on Ace and 6 the dealer stands. A dealer's turn that returns
    leaves a hand worth at least 17. *)
Theorem dealer_turn_spec (self : BlackjackGame) (stdin : list string)
    (g : Random) (ph dh : Hand) :
  player_hand self = Some ph ->
  dealer_hand self = Some dh ->
  (is_bust ph = true ->
   settle_hand self stdin g = ' s <- determine_winner self ;; Ok (s, stdin, g))
  /\ (is_bust ph = false ->
      settle_hand self stdin g
      = '(s, g') <- dealer_turn self g ;;
        ' s <- determine_winner s ;; Ok (s, stdin, g'))
  /\ (get_value dh < 17 ->
      dealer_turn self g
      = '(card, d, g') <- deal_card (deck self) g ;;
        dealer_turn (set_dealer_hand (set_deck self d) (Some (add_card dh card))) g')
  /\ (17 <= get_value dh -> dealer_turn self g = Ok (self, g))
  /\ (forall s1 s2,
      dh = mkHand [mkCard s1 ACE; mkCard s2 SIX] ->
      get_value dh = 17 /\ dealer_turn self g = Ok (self, g))
  /\ (forall self' g',
      dealer_turn self g = Ok (self', g') ->
      exists dh',
        dealer_hand self' = Some dh' /\ 17 <= get_value dh'
        /\ player_hand self' = Some ph
        /\ player_balance self' = player_balance self
        /\ current_bet self' = current_bet self).
Proof.
  intros Hph Hdh.
  assert (Hstand : 17 <= get_value dh -> dealer_turn self g = Ok (self, g)).
  { intros Hval. rewrite (dealer_turn_unfold _ _ _ Hdh).
    apply Z.ltb_ge in Hval. now rewrite Hval. }
  split; [|split; [|split; [|split; [|split]]]].
  - intros Hbust. unfold settle_hand. rewrite Hph. cbn [the_hand bind].
    rewrite Hbust. reflexivity.
  - intros Hbust. unfold settle_hand. rewrite Hph. cbn [the_hand bind].
    rewrite Hbust. reflexivity.
  - intros Hval. rewrite (dealer_turn_unfold _ _ _ Hdh).
    apply Z.ltb_lt in Hval. now rewrite Hval.
  - exact Hstand.
  - intros s1 s2 Hsoft.
    assert (Hval : get_value dh = 17) by now subst dh.
    split; [exact Hval|]. apply Hstand. lia.
  - intros self' g'. unfold dealer_turn. rewrite Hdh. cbn [the_hand bind].
    destruct (dealer_loop dh (deck self) g) as [[[dh' d'] g'']|e] eqn:Eloop;
      cbn [bind]; [|discriminate].
    intros [= <- <-].
    destruct (dealer_loop_result _ _ _ _ _ _ _ (le_n _) Eloop)
      as (drawn & _ & _ & Hval & _).
    exists dh'. cbn. auto.
Qed.

End GameProperties.



(** * Further properties *)

(** ** More on scoring *)

Lemma adjust_le (aces : nat) : forall value, adjust value aces <= value.
Proof.
  induction aces as [|aces IH]; intros value; cbn [adjust]; [lia|].
  destruct (21 <? value); [specialize (IH (value - 10))|]; lia.
Qed.

Lemma adjust_small (aces : nat) (value : Z) :
  value <= 21 -> adjust value aces = value.
Proof.
  intros Hsmall. destruct aces as [|aces]; cbn [adjust]; [reflexivity|].
  apply Z.ltb_ge in Hsmall. now rewrite Hsmall.
Qed.

(** The loop leaves a total above 21 only when it has run out of Aces. *)
Lemma adjust_above_21 (aces : nat) : forall value,
  21 < adjust value aces <-> 21 < value - 10 * Z.of_nat aces.
Proof.
  induction aces as [|aces IH]; intros value; cbn [adjust].
  - split; lia.
  - destruct (21 <? value) eqn:E.
    + rewrite IH. split; lia.
    + apply Z.ltb_ge in E. split; lia.
Qed.

(** A number card or a face card adds at most its value. *)
Lemma adjust_add (aces : nat) : forall value more,
  0 <= more -> adjust (value + more) aces <= adjust value aces + more.
Proof.
  induction aces as [|aces IH]; intros value more Hmore; cbn [adjust]; [lia|].
  destruct (21 <? value + more) eqn:E, (21 <? value) eqn:E';
    try apply Z.ltb_lt in E; try apply Z.ltb_ge in E;
    try apply Z.ltb_lt in E'; try apply Z.ltb_ge in E'; try lia.
  - replace (value + more - 10) with (value - 10 + more) by lia. now apply IH.
  - pose proof (adjust_le aces (value + more - 10)). lia.
Qed.

(** X1. [get_value] is the best the hand can make: when some way of
    counting the Aces as 1 or 11 keeps the total at 21 or below, the value is
    the largest such total; when none does, it is the total with every Ace
    counted 1. *)
Theorem get_value_best (self : Hand) :
  let total := base_total (hand_cards self) in
  let aces := count_aces (hand_cards self) in
  (hard_total self <= 21 ->
   get_value self <= 21
   /\ (exists k : nat, (k <= aces)%nat /\ get_value self = total - 10 * Z.of_nat k)
   /\ (forall k : nat, (k <= aces)%nat -> total - 10 * Z.of_nat k <= 21 ->
       total - 10 * Z.of_nat k <= get_value self))
  /\ (21 < hard_total self -> get_value self = hard_total self).
Proof.
  cbv zeta. rewrite get_value_unfold. unfold hard_total.
  set (total := base_total (hand_cards self)).
  set (aces := count_aces (hand_cards self)).
  destruct (adjust_spec aces total) as (k0 & Hk0 & Hval & Hbefore & Hstop).
  pose proof (adjust_above_21 aces total) as Habove.
  split.
  - intros Hhard. split; [lia|]. split.
    + now exists k0.
    + intros k Hk Hfits. rewrite Hval.
      destruct (Nat.lt_ge_cases k k0) as [Hlt|Hge].
      * specialize (Hbefore k Hlt). lia.
      * lia.
  - intros Hhard. destruct Hstop as [->|Hstop]; lia.
Qed.

(** X2. A hand is bust exactly when it is above 21 with every Ace counted
    1. *)
Theorem is_bust_iff_hard_total (self : Hand) :
  is_bust self = true <-> 21 < hard_total self.
Proof.
  unfold is_bust, hard_total. rewrite Z.ltb_lt, get_value_unfold.
  apply adjust_above_21.
Qed.

Lemma base_total_Permutation (cs cs' : list Card) :
  Permutation cs cs' -> base_total cs = base_total cs'.
Proof.
  unfold base_total.
  induction 1 as [|c cs cs' _ IH|c c' cs|cs cs' cs'' _ IH _ IH'];
    cbn [fold_right]; lia.
Qed.

Lemma count_aces_Permutation (cs cs' : list Card) :
  Permutation cs cs' -> count_aces cs = count_aces cs'.
Proof.
  unfold count_aces.
  induction 1 as [|c cs cs' _ IH|c c' cs|cs cs' cs'' _ IH _ IH'];
    cbn [filter]; [reflexivity| | |congruence].
  - destruct (is_ace (rank c)); cbn [List.length]; congruence.
  - destruct (is_ace (rank c)), (is_ace (rank c')); reflexivity.
Qed.

(** X3. The value of a hand does not depend on the order of its cards. *)
Theorem get_value_Permutation (self other : Hand) :
  Permutation (hand_cards self) (hand_cards other) ->
  get_value self = get_value other
  /\ is_bust self = is_bust other
  /\ is_blackjack self = is_blackjack other.
Proof.
  intros Hperm.
  assert (Hval : get_value self = get_value other).
  { rewrite !get_value_unfold.
    now rewrite (base_total_Permutation _ _ Hperm), (count_aces_Permutation _ _ Hperm). }
  unfold is_bust, is_blackjack.
  now rewrite Hval, (Permutation_length Hperm).
Qed.

(** X4. A blackjack is an Ace with a card worth 10, in either order, and
    nothing else. *)
Theorem is_blackjack_cards (self : Hand) :
  is_blackjack self = true
  <-> exists c1 c2,
        hand_cards self = [c1; c2]
        /\ ((rank c1 = ACE /\ rank_value (rank c2) = 10)
            \/ (rank_value (rank c1) = 10 /\ rank c2 = ACE)).
Proof.
  destruct self as [cs]. unfold is_blackjack, get_value. cbn [hand_cards]. split.
  - intros Hbj. apply andb_true_iff in Hbj. destruct Hbj as [Hlen Hval].
    apply Z.eqb_eq in Hlen, Hval.
    destruct cs as [|c1 [|c2 [|c3 cs]]]; cbn [List.length] in Hlen; try lia.
    exists c1, c2. split; [reflexivity|].
    destruct c1 as [s1 r1], c2 as [s2 r2]. cbn [rank].
    destruct r1, r2; cbv in Hval; try discriminate; cbn; auto.
  - intros (c1 & c2 & -> & Hranks).
    destruct c1 as [s1 r1], c2 as [s2 r2]. cbn [rank] in Hranks.
    destruct Hranks as [[-> Hten]|[Hten ->]];
      [destruct r2|destruct r1]; cbv in Hten; try discriminate; reflexivity.
Qed.

(** A card adds at most 11 to the value, and at most 10 if the hand is above
    21 with it. *)
Lemma get_value_add_card_le (self : Hand) (card : Card) :
  get_value (add_card self card) <= Z.max 21 (get_value self + 10).
Proof.
  rewrite !get_value_unfold. unfold add_card. cbn [hand_cards].
  rewrite base_total_app, count_aces_app.
  set (total := base_total (hand_cards self)).
  set (aces := count_aces (hand_cards self)).
  unfold count_aces at 1. unfold base_total at 1. cbn [fold_right filter].
  destruct (is_ace (rank card)) eqn:Eace; cbn [List.length].
  - assert (card_value card = 11) as ->
      by (unfold card_value; destruct (rank card); cbn in *; congruence).
    replace (aces + 1)%nat with (S aces) by lia. cbn [adjust].
    destruct (21 <? total + (11 + 0)) eqn:E.
    + replace (total + (11 + 0) - 10) with (total + 1) by lia.
      pose proof (adjust_add aces total 1 ltac:(lia)). lia.
    + apply Z.ltb_ge in E. lia.
  - replace (aces + 0)%nat with aces by lia.
    assert (0 <= card_value card <= 10) as Hcard
      by (unfold card_value; destruct (rank card); cbn in *; try discriminate; lia).
    pose proof (adjust_add aces total (card_value card + 0) ltac:(lia)). lia.
Qed.

(** ** More on the shoe *)

Definition Suit_eq_dec (s s' : Suit) : {s = s'} + {s <> s'}.
Proof. decide equality. Defined.

Definition Rank_eq_dec (r r' : Rank) : {r = r'} + {r <> r'}.
Proof. decide equality. Defined.

Definition Card_eq_dec (c c' : Card) : {c = c'} + {c <> c'}.
Proof. decide equality; [apply Rank_eq_dec | apply Suit_eq_dec]. Defined.

Section MoreDeckProperties.

Context {RT : Runtime}.

Lemma count_occ_full_deck (card : Card) :
  count_occ Card_eq_dec full_deck card = 1%nat.
Proof.
  destruct card as [s r]. destruct s, r; reflexivity.
Qed.

Lemma count_occ_fresh_cards (n : Z) (card : Card) :
  count_occ Card_eq_dec (fresh_cards n) card = Z.to_nat n.
Proof.
  unfold fresh_cards.
  induction (Z.to_nat n) as [|k IH]; cbn [repeat concat].
  - reflexivity.
  - rewrite count_occ_app, IH, count_occ_full_deck. reflexivity.
Qed.

(** X5. After [reset] the shoe holds every one of the 52 cards exactly
    [num_decks] times (not at all when [num_decks] is zero or negative),
    whatever it held before; [num_decks] is kept. *)
Theorem reset_contents (self : Deck) (g : Random) (card : Card) :
  count_occ Card_eq_dec (cards (fst (reset self g))) card
  = Z.to_nat (num_decks self)
  /\ List.length (cards (fst (reset self g))) = (52 * Z.to_nat (num_decks self))%nat
  /\ num_decks (fst (reset self g)) = num_decks self.
Proof.
  pose proof (reset_spec self g) as Hreset.
  destruct (reset self g) as [self' g']. cbn [fst].
  destruct Hreset as (Hperm & Hnum & _).
  split; [|split].
  - rewrite <- (proj1 (Permutation_count_occ Card_eq_dec _ _) Hperm).
    apply count_occ_fresh_cards.
  - rewrite <- (Permutation_length Hperm). apply length_fresh_cards.
  - exact Hnum.
Qed.

(** X6. A shoe whose [num_decks] is zero or negative cannot be dealt from
    once it is below 10 cards: [deal_card] rebuilds it empty, throwing away
    the cards that were left, and [pop] raises [IndexError]. *)
Theorem deal_card_no_decks (self : Deck) (g : Random) :
  num_decks self <= 0 ->
  Z.of_nat (List.length (cards self)) < 10 ->
  deal_card self g = Raise IndexError.
Proof.
  intros Hdecks Hlow. unfold deal_card.
  apply Z.ltb_lt in Hlow. rewrite Hlow.
  pose proof (reset_spec self g) as Hreset.
  destruct (reset self g) as [self' g'].
  destruct Hreset as (Hperm & _ & _).
  apply Permutation_length in Hperm.
  rewrite length_fresh_cards in Hperm.
  replace (Z.to_nat (num_decks self)) with 0%nat in Hperm by lia.
  destruct (cards self') as [|c cs] eqn:Ecards; [reflexivity|].
  cbn [List.length] in Hperm. lia.
Qed.

(** X7. While the shoe stays at 10 cards or more before each draw, dealing
    takes the cards from the end of the list, the last one first, and leaves
    the generator alone: no shuffle happens. *)
Theorem deal_cards_from_the_end (dealt : list Card) : forall self g rest,
  cards self = rest ++ rev dealt ->
  (9 <= List.length rest)%nat ->
  deal_cards (List.length dealt) self g
  = Ok (dealt, mkDeck rest (num_decks self), g).
Proof.
  induction dealt as [|card dealt IH]; intros self g rest Hcards Hrest;
    cbn [List.length deal_cards].
  - cbn [rev] in Hcards. rewrite app_nil_r in Hcards. subst rest.
    now destruct self.
  - cbn [rev] in Hcards. rewrite app_assoc in Hcards.
    unfold deal_card.
    assert (Hlen : (Z.of_nat (List.length (cards self)) <? 10) = false).
    { apply Z.ltb_ge. rewrite Hcards, !length_app. cbn [List.length]. lia. }
    rewrite Hlen.
    rewrite (proj2 (pop_Some _ _ _) Hcards). cbn [bind].
    rewrite (IH (mkDeck (rest ++ rev dealt) (num_decks self)) g rest eq_refl Hrest).
    reflexivity.
Qed.

End MoreDeckProperties.

(** ** What is printed of cards and hands *)

(** Python strings are written as their UTF-8 bytes. *)

(** [Suit.value] *)
Definition suit_symbol (s : Suit) : string :=
  match s with
  | HEARTS => "♥" | DIAMONDS => "♦" | CLUBS => "♣" | SPADES => "♠"
  end%string.

(** [Rank.value[0]] *)
Definition rank_symbol (r : Rank) : string :=
  match r with
  | ACE => "A" | TWO => "2" | THREE => "3" | FOUR => "4" | FIVE => "5"
  | SIX => "6" | SEVEN => "7" | EIGHT => "8" | NINE => "9" | TEN => "10"
  | JACK => "J" | QUEEN => "Q" | KING => "K"
  end%string.

(** [Card.__str__] *)
Definition card_str (self : Card) : string :=
  (rank_symbol (rank self) ++ suit_symbol (suit self))%string.

(** [str] of a Python [int] *)
Definition str_of_int (n : Z) : string := NilZero.string_of_int (Z.to_int n).

(** [Hand.display]: the line that is printed. *)
Definition display (self : Hand) (name : string) (hide_first : bool) : string :=
  (let cards_str :=
     String.concat ", " (map (fun card => "[" ++ card_str card ++ "]") (hand_cards self)) in
   let value := if hide_first then "?" else str_of_int (get_value self) in
   name ++ ": " ++ cards_str ++ " (Value: " ++ value ++ ")")%string.

(** X8. No two cards are printed alike. *)
Theorem card_str_injective (c c' : Card) :
  card_str c = card_str c' -> c = c'.
Proof.
  destruct c as [s r], c' as [s' r']. unfold card_str. cbn [rank suit].
  destruct r, r'; cbn [rank_symbol];
    destruct s, s'; cbn; intros H; first [reflexivity | discriminate H].
Qed.

Lemma string_app_assoc (s1 s2 s3 : string) :
  ((s1 ++ s2) ++ s3 = s1 ++ (s2 ++ s3))%string.
Proof.
  induction s1 as [|c s1 IH]; cbn; [reflexivity|]. now rewrite IH.
Qed.

Lemma string_app_nil_r (s : string) : (s ++ "" = s)%string.
Proof.
  induction s as [|c s IH]; cbn; [reflexivity|]. now rewrite IH.
Qed.

Lemma concat_In (sep x : string) (xs : list string) :
  In x xs ->
  exists pre post, String.concat sep xs = (pre ++ x ++ post)%string.
Proof.
  induction xs as [|y xs IH]; [intros []|].
  intros [->|Hin].
  - exists ""%string. destruct xs as [|z xs]; cbn [String.concat].
    + exists ""%string. cbn. now rewrite string_app_nil_r.
    + now exists (sep ++ String.concat sep (z :: xs))%string.
  - destruct (IH Hin) as (pre & post & Hcat).
    destruct xs as [|z xs]; [destruct Hin|].
    cbn [String.concat] in *. rewrite Hcat.
    exists (y ++ sep ++ pre)%string, post.
    now rewrite !string_app_assoc.
Qed.

(** X9. [hide_first] hides the value and nothing else: every card of the
    hand, the first included, is in the line, between brackets, whether the
    flag is set or not; with the flag the value is shown as [?]. *)
Theorem display_shows_every_card (self : Hand) (name : string)
    (hide_first : bool) (card : Card) :
  In card (hand_cards self) ->
  exists pre post,
    display self name hide_first
    = (name ++ ": " ++ (pre ++ ("[" ++ card_str card ++ "]") ++ post)
       ++ " (Value: "
       ++ (if hide_first then "?" else str_of_int (get_value self)) ++ ")")%string.
Proof.
  intros Hin. unfold display.
  destruct (concat_In ", "%string ("[" ++ card_str card ++ "]")%string
              (map (fun card => "[" ++ card_str card ++ "]")%string (hand_cards self)))
    as (pre & post & Hcat).
  { apply (in_map (fun card => "[" ++ card_str card ++ "]")%string), Hin. }
  exists pre, post. now rewrite Hcat.
Qed.

(** ** More on the round *)

Section MoreGameProperties.

Context {RT : Runtime}.

(** A line at the bet prompt that [place_bet] does not take, with the balance
    it is compared with. *)
Definition bet_refused (balance : float) (line : string) : Prop :=
  match float_of_string line with
  | None => True
  | Some bet => (bet <=? 0)%float = true \/ (balance <? bet)%float = true
  end.

(** X10. [place_bet] fails in one way only, [EOFError], and it does so
    exactly when every line left on the input is refused: an empty input, or
    lines that are no numbers, or bets that are zero, negative or above the
    balance. *)
Theorem place_bet_EOFError (self : BlackjackGame) (stdin : list string) :
  (forall e, place_bet self stdin = Raise e -> e = EOFError)
  /\ (place_bet self stdin = Raise EOFError
      <-> Forall (bet_refused (player_balance self)) stdin).
Proof.
  induction stdin as [|line stdin [IHe IHiff]]; cbn [place_bet].
  - split; [now intros e [= <-]|]. split; [constructor|reflexivity].
  - unfold bet_refused at 1.
    destruct (float_of_string line) as [bet|] eqn:Eline.
    + destruct (bet <=? 0)%float eqn:Ele; cbn [orb].
      * split; [exact IHe|]. rewrite IHiff. split.
        -- intros Hrest. constructor; [|exact Hrest].
           unfold bet_refused. rewrite Eline. now left.
        -- now inversion 1.
      * destruct (player_balance self <? bet)%float eqn:Elt.
        -- split; [exact IHe|]. rewrite IHiff. split.
           ++ intros Hrest. constructor; [|exact Hrest].
              unfold bet_refused. rewrite Eline. now right.
           ++ now inversion 1.
        -- split; [discriminate|]. split; [discriminate|].
           inversion 1 as [|? ? Hline _]; subst.
           unfold bet_refused in Hline. rewrite Eline in Hline.
           destruct Hline; congruence.
    + split; [exact IHe|]. rewrite IHiff. split.
      * intros Hrest. constructor; [|exact Hrest].
        unfold bet_refused. now rewrite Eline.
      * now inversion 1.
Qed.

Lemma deal_card_num_decks (d d' : Deck) (g g' : Random) (card : Card) :
  deal_card d g = Ok (card, d', g') -> num_decks d' = num_decks d.
Proof.
  unfold deal_card.
  destruct (Z.of_nat (List.length (cards d)) <? 10).
  - pose proof (reset_spec d g) as Hreset.
    destruct (reset d g) as [d1 g1]. destruct Hreset as (_ & Hnum & _).
    destruct (pop (cards d1)) as [[front c]|]; [|discriminate].
    now intros [= _ <- _].
  - destruct (pop (cards d)) as [[front c]|]; [|discriminate].
    now intros [= _ <- _].
Qed.

Lemma deal_card_raises (d : Deck) (g : Random) (e : exn) :
  deal_card d g = Raise e -> e = IndexError /\ num_decks d <= 0.
Proof.
  intros Hraise.
  destruct (Z_le_gt_dec (num_decks d) 0) as [Hle|Hgt].
  - split; [|exact Hle]. unfold deal_card in Hraise.
    destruct (if Z.of_nat (List.length (cards d)) <? 10 then reset d g else (d, g))
      as [d1 g1].
    destruct (pop (cards d1)) as [[front c]|]; [discriminate|].
    now injection Hraise as <-.
  - destruct (deal_card_spec d g ltac:(lia)) as (c & d' & g' & Hok & _).
    congruence.
Qed.

(** What a player's turn that returns has done, and has left alone. *)
Lemma player_turn_returns (stdin : list string) :
  forall self g self' stdin' g',
  player_turn self stdin g = Ok (self', stdin', g') ->
  dealer_hand self' = dealer_hand self
  /\ game_over self' = game_over self
  /\ num_decks (deck self') = num_decks (deck self)
  /\ (exists ph ph' drawn read,
        player_hand self = Some ph
        /\ player_hand self' = Some ph'
        /\ hand_cards ph' = hand_cards ph ++ drawn
        /\ stdin = read ++ stdin'
        /\ (List.length drawn <= List.length read)%nat)
  /\ ((current_bet self' = current_bet self
       /\ player_balance self' = player_balance self)
      \/ (current_bet self' = (current_bet self * 2)%float
          /\ player_balance self' = (player_balance self - current_bet self)%float)).
Proof.
  induction stdin as [|line stdin IH]; intros self g self' stdin' g';
    cbn [player_turn];
    destruct (dealer_hand self) as [dh|] eqn:Edh; cbn [the_hand bind];
      try discriminate;
    destruct (player_hand self) as [ph|] eqn:Eph; cbn [the_hand bind];
      try discriminate;
    destruct (is_bust ph) eqn:Ebust; try discriminate.
  - intros [= <- <- <-]. rewrite Edh. repeat split; auto.
    exists ph, ph, [], []. rewrite app_nil_r. repeat split; auto.
  - intros [= <- <- <-]. rewrite Edh. repeat split; auto.
    exists ph, ph, [], []. rewrite app_nil_r. repeat split; auto.
  - destruct (upper line =? "H")%string.
    { destruct (deal_card (deck self) g) as [[[card d] g1]|e] eqn:Edeal;
        cbn [bind]; [|discriminate].
      intros Hturn. apply IH in Hturn.
      cbn [dealer_hand game_over deck player_hand current_bet player_balance
           set_player_hand set_deck] in Hturn.
      destruct Hturn as (Hdh & Hover & Hnum & Hhands & Hmoney).
      destruct Hhands as (ph1 & ph' & drawn & read & [= <-] & Hph' & Hcards & Hread & Hlen).
      rewrite (deal_card_num_decks _ _ _ _ _ Edeal) in Hnum.
      repeat split; try congruence; auto.
      exists ph, ph', (card :: drawn), (line :: read).
      cbn [add_card hand_cards] in Hcards. rewrite <- app_assoc in Hcards.
      repeat split; auto; cbn [List.length app]; [congruence|lia]. }
    destruct (upper line =? "S")%string.
    { intros [= <- <- <-]. rewrite Edh. repeat split; auto.
      exists ph, ph, [], [line]. rewrite app_nil_r.
      repeat split; auto. cbn [List.length]. lia. }
    assert (Hagain : player_turn self stdin g = Ok (self', stdin', g') ->
              dealer_hand self' = Some dh
              /\ game_over self' = game_over self
              /\ num_decks (deck self') = num_decks (deck self)
              /\ (exists ph0 ph' drawn read,
                    Some ph = Some ph0
                    /\ player_hand self' = Some ph'
                    /\ hand_cards ph' = hand_cards ph0 ++ drawn
                    /\ line :: stdin = read ++ stdin'
                    /\ (List.length drawn <= List.length read)%nat)
              /\ ((current_bet self' = current_bet self
                   /\ player_balance self' = player_balance self)
                  \/ (current_bet self' = (current_bet self * 2)%float
                      /\ player_balance self'
                         = (player_balance self - current_bet self)%float))).
    { intros Hturn. apply IH in Hturn.
      destruct Hturn as (Hdh & Hover & Hnum & Hhands & Hmoney).
      destruct Hhands as (ph1 & ph' & drawn & read & Hph1 & Hph' & Hcards & Hread & Hlen).
      rewrite Eph in Hph1. injection Hph1 as <-.
      repeat split; try congruence; auto.
      exists ph, ph', drawn, (line :: read).
      repeat split; auto; cbn [List.length app]; [congruence|lia]. }
    destruct (upper line =? "D")%string; [|exact Hagain].
    destruct ((Z.of_nat (List.length (hand_cards ph)) =? 2)
              && (current_bet self <=? player_balance self)%float);
      [|exact Hagain].
    cbn [deck set_current_bet set_player_balance].
    destruct (deal_card (deck self) g) as [[[card d] g1]|e] eqn:Edeal;
      cbn [bind]; [|discriminate].
    intros [= <- <- <-].
    cbn [dealer_hand game_over deck player_hand current_bet player_balance
         set_player_hand set_deck set_current_bet set_player_balance].
    rewrite (deal_card_num_decks _ _ _ _ _ Edeal).
    split; [exact Edh|]. split; [reflexivity|]. split; [reflexivity|]. split.
    + exists ph, (add_card ph card), [card], [line].
      repeat split; auto.
    + right. split; reflexivity.
Qed.

(** With the hands dealt and a shoe of one deck or more, a player's turn
    fails only for want of input. *)
Lemma player_turn_raises (stdin : list string) : forall self g e ph dh,
  player_hand self = Some ph ->
  dealer_hand self = Some dh ->
  1 <= num_decks (deck self) ->
  player_turn self stdin g = Raise e -> e = EOFError.
Proof.
  induction stdin as [|line stdin IH]; intros self g e ph dh Hph Hdh Hdecks;
    cbn [player_turn]; rewrite Hph, Hdh; cbn [the_hand bind];
    destruct (is_bust ph); try discriminate.
  - now intros [= <-].
  - destruct (upper line =? "H")%string.
    { destruct (deal_card_spec (deck self) g Hdecks)
        as (card & d & g1 & -> & Hnum & _).
      cbn [bind]. apply (IH _ _ _ (add_card ph card) dh); cbn; auto. lia. }
    destruct (upper line =? "S")%string; [discriminate|].
    destruct (upper line =? "D")%string; [|now apply (IH _ _ _ ph dh)].
    destruct ((Z.of_nat (List.length (hand_cards ph)) =? 2)
              && (current_bet self <=? player_balance self)%float);
      [|now apply (IH _ _ _ ph dh)].
    cbn [deck set_current_bet set_player_balance].
    destruct (deal_card_spec (deck self) g Hdecks) as (card & d & g1 & -> & _).
    discriminate.
Qed.

(** X11. A player's turn, with the hands dealt and a shoe of one deck or
    more, fails only for want of input ([EOFError]). One that returns has left
    the dealer's hand alone, has only added cards to the player's hand, at
    most one for each line it read, and has either left bet and balance
    alone or doubled the bet once and taken the old bet off the balance. *)
Theorem player_turn_frame (self : BlackjackGame) (stdin : list string)
    (g : Random) (ph dh : Hand) :
  player_hand self = Some ph ->
  dealer_hand self = Some dh ->
  1 <= num_decks (deck self) ->
  match player_turn self stdin g with
  | Raise e => e = EOFError
  | Ok (self', stdin', g') =>
      dealer_hand self' = Some dh
      /\ (exists ph' drawn read,
            player_hand self' = Some ph'
            /\ hand_cards ph' = hand_cards ph ++ drawn
            /\ stdin = read ++ stdin'
            /\ (List.length drawn <= List.length read)%nat)
      /\ ((current_bet self' = current_bet self
           /\ player_balance self' = player_balance self)
          \/ (current_bet self' = (current_bet self * 2)%float
              /\ player_balance self'
                 = (player_balance self - current_bet self)%float))
  end.
Proof.
  intros Hph Hdh Hdecks.
  destruct (player_turn self stdin g) as [[[self' stdin'] g']|e] eqn:Eturn.
  - destruct (player_turn_returns _ _ _ _ _ _ Eturn)
      as (Hdh' & _ & _ & (ph0 & ph' & drawn & read & Hph0 & Hrest) & Hmoney).
    rewrite Hph in Hph0. injection Hph0 as <-.
    split; [congruence|]. split; [|exact Hmoney].
    now exists ph', drawn, read.
  - now apply (player_turn_raises _ _ _ _ _ _ Hph Hdh Hdecks Eturn).
Qed.

(** The dealer's loop on a shoe of one deck or more returns. *)
Lemma dealer_loop_returns (fuel : nat) : forall dh d g,
  (draws_left dh <= fuel)%nat ->
  1 <= num_decks d ->
  exists dh' d' g', dealer_loop dh d g = Ok (dh', d', g').
Proof.
  induction fuel as [|fuel IH]; intros dh d g Hfuel Hdecks;
    rewrite dealer_loop_step;
    destruct (get_value dh <? 17) eqn:Elt; try (now eexists _, _, _);
    apply Z.ltb_lt in Elt; pose proof (hard_total_le_get_value dh);
    unfold draws_left in Hfuel; [lia|].
  destruct (deal_card_spec d g Hdecks) as (card & d1 & g1 & -> & Hnum & _).
  cbn [bind]. apply IH; [|lia].
  pose proof (hard_total_add_card_lt dh card). unfold draws_left. lia.
Qed.

(** The loop stops at the first value of 17 or more, and the card that took
    it there added at most 10 to a value of at most 16. *)
Lemma dealer_loop_value_le (fuel : nat) : forall dh d g dh' d' g',
  (draws_left dh <= fuel)%nat ->
  dealer_loop dh d g = Ok (dh', d', g') ->
  get_value dh' <= Z.max (get_value dh) 26.
Proof.
  induction fuel as [|fuel IH]; intros dh d g dh' d' g' Hfuel;
    rewrite dealer_loop_step;
    destruct (get_value dh <? 17) eqn:Elt;
    try (intros [= <- <- <-]; lia);
    apply Z.ltb_lt in Elt; pose proof (hard_total_le_get_value dh);
    unfold draws_left in Hfuel; [lia|].
  destruct (deal_card d g) as [[[card d1] g1]|e]; cbn [bind]; [|discriminate].
  intros Hloop. apply IH in Hloop.
  - pose proof (get_value_add_card_le dh card). lia.
  - pose proof (hard_total_add_card_lt dh card). unfold draws_left. lia.
Qed.

Lemma dealer_turn_Ok (self : BlackjackGame) (g : Random) (dh : Hand) :
  dealer_hand self = Some dh ->
  1 <= num_decks (deck self) ->
  exists dh' d' g',
    dealer_loop dh (deck self) g = Ok (dh', d', g')
    /\ dealer_turn self g = Ok (set_dealer_hand (set_deck self d') (Some dh'), g').
Proof.
  intros Hdh Hdecks. unfold dealer_turn. rewrite Hdh. cbn [the_hand bind].
  destruct (dealer_loop_returns _ dh (deck self) g (le_n _) Hdecks)
    as (dh' & d' & g' & Hloop).
  rewrite Hloop. cbn [bind]. now exists dh', d', g'.
Qed.

(** X12. On a shoe of one deck or more the dealer's turn always returns, and
    it leaves the dealer with a hand worth at least 17 and, if cards had to
    be drawn, at most 26; bet, balance and the player's hand are as they
    were. *)
Theorem dealer_turn_range (self : BlackjackGame) (g : Random) (dh : Hand) :
  dealer_hand self = Some dh ->
  1 <= num_decks (deck self) ->
  exists self' g' dh',
    dealer_turn self g = Ok (self', g')
    /\ dealer_hand self' = Some dh'
    /\ 17 <= get_value dh'
    /\ get_value dh' <= Z.max (get_value dh) 26
    /\ player_hand self' = player_hand self
    /\ player_balance self' = player_balance self
    /\ current_bet self' = current_bet self.
Proof.
  intros Hdh Hdecks.
  destruct (dealer_turn_Ok self g dh Hdh Hdecks) as (dh' & d' & g' & Hloop & ->).
  exists (set_dealer_hand (set_deck self d') (Some dh')), g', dh'.
  destruct (dealer_loop_result _ _ _ _ _ _ _ (le_n _) Hloop) as (_ & _ & _ & Hval & _).
  pose proof (dealer_loop_value_le _ _ _ _ _ _ _ (le_n _) Hloop).
  repeat split; auto.
Qed.

Lemma deal_cards_num_decks (n : nat) : forall d g dealt d' g',
  deal_cards n d g = Ok (dealt, d', g') -> num_decks d' = num_decks d.
Proof.
  induction n as [|n IH]; intros d g dealt d' g'; cbn [deal_cards].
  - now intros [= _ <- _].
  - destruct (deal_card d g) as [[[card d1] g1]|e] eqn:Edeal; cbn [bind];
      [|discriminate].
    destruct (deal_cards n d1 g1) as [[[more d2] g2]|e] eqn:Emore; cbn [bind];
      [|discriminate].
    intros [= _ <- _].
    rewrite (IH _ _ _ _ _ Emore). apply (deal_card_num_decks _ _ _ _ _ Edeal).
Qed.

Lemma deal_initial_hands_returns (self : BlackjackGame) (g : Random) :
  1 <= num_decks (deck self) ->
  exists self' g', deal_initial_hands self g = Ok (self', g').
Proof.
  intros Hdecks. unfold deal_initial_hands, deal_round.
  destruct (deal_card_spec (deck self) g Hdecks) as (c1 & d1 & g1 & -> & Hn1 & _).
  cbn [bind].
  destruct (deal_card_spec d1 g1 ltac:(lia)) as (c2 & d2 & g2 & -> & Hn2 & _).
  cbn [bind].
  destruct (deal_card_spec d2 g2 ltac:(lia)) as (c3 & d3 & g3 & -> & Hn3 & _).
  cbn [bind].
  destruct (deal_card_spec d3 g3 ltac:(lia)) as (c4 & d4 & g4 & -> & Hn4 & _).
  cbn [bind]. now eexists _, _.
Qed.

Lemma dealer_turn_returns (self self' : BlackjackGame) (g g' : Random) :
  dealer_turn self g = Ok (self', g') ->
  exists dh dh' d' drawn,
    dealer_hand self = Some dh
    /\ self' = set_dealer_hand (set_deck self d') (Some dh')
    /\ num_decks d' = num_decks (deck self)
    /\ hand_cards dh' = hand_cards dh ++ drawn.
Proof.
  unfold dealer_turn.
  destruct (dealer_hand self) as [dh|]; cbn [the_hand bind]; [|discriminate].
  destruct (dealer_loop dh (deck self) g) as [[[dh' d'] g1]|e] eqn:Eloop;
    cbn [bind]; [|discriminate].
  intros [= <- <-].
  destruct (dealer_loop_result _ _ _ _ _ _ _ (le_n _) Eloop)
    as (drawn & Hcards & _ & _ & Hnum).
  now exists dh, dh', d', drawn.
Qed.

Lemma determine_winner_returns (self self' : BlackjackGame) :
  determine_winner self = Ok self' ->
  exists balance, self' = set_player_balance self balance.
Proof.
  unfold determine_winner.
  destruct (player_hand self) as [ph|]; cbn [the_hand bind]; [|discriminate].
  destruct (dealer_hand self) as [dh|]; cbn [the_hand bind]; [|discriminate].
  assert (Hsame : self = set_player_balance self (player_balance self))
    by now destruct self.
  destruct (is_bust ph); [intros [= <-]; now exists (player_balance self)|].
  destruct (is_bust dh); [intros [= <-]; now eexists|].
  destruct (get_value dh <? get_value ph); [intros [= <-]; now eexists|].
  destruct (get_value ph <? get_value dh); intros [= <-];
    [now exists (player_balance self) | now eexists].
Qed.

Lemma determine_winner_Ok (self : BlackjackGame) (ph dh : Hand) :
  player_hand self = Some ph -> dealer_hand self = Some dh ->
  exists self', determine_winner self = Ok self'.
Proof.
  intros Hph Hdh. unfold determine_winner. rewrite Hph, Hdh. cbn [the_hand bind].
  destruct (is_bust ph); [now eexists|].
  destruct (is_bust dh); [now eexists|].
  destruct (get_value dh <? get_value ph); [now eexists|].
  destruct (get_value ph <? get_value dh); now eexists.
Qed.

(** What a round that returns has read and left behind. *)
Lemma play_hand_returns (self : BlackjackGame) (stdin : list string) (g : Random)
    (self' : BlackjackGame) (stdin' : list string) (g' : Random) :
  play_hand self stdin g = Ok (self', stdin', g') ->
  (exists read, stdin = read ++ stdin' /\ (1 <= List.length read)%nat)
  /\ num_decks (deck self') = num_decks (deck self)
  /\ game_over self' = game_over self
  /\ (exists ph dh,
        player_hand self' = Some ph /\ dealer_hand self' = Some dh
        /\ (2 <= List.length (hand_cards ph))%nat
        /\ (2 <= List.length (hand_cards dh))%nat).
Proof.
  unfold play_hand.
  destruct (place_bet self stdin) as [[self1 stdin1]|e] eqn:Ebet; cbn [bind];
    [|discriminate].
  destruct (place_bet_accepted _ _ _ _ Ebet)
    as (skipped & line & bet & Hstdin & _ & _ & _ & Hself1).
  destruct (deal_initial_hands self1 g) as [[self2 g2]|e] eqn:Edeal; cbn [bind];
    [|discriminate].
  destruct (deal_initial_hands_spec _ _ _ _ Edeal)
    as (c1 & c2 & c3 & c4 & d & Hself2 & Hdealt).
  apply deal_cards_num_decks in Hdealt.
  assert (Hread1 : exists read, stdin = read ++ stdin1 /\ (1 <= List.length read)%nat).
  { exists (skipped ++ [line]). rewrite <- app_assoc. split; [exact Hstdin|].
    rewrite length_app. cbn [List.length]. lia. }
  assert (Hbase : num_decks (deck self2) = num_decks (deck self)
                  /\ game_over self2 = game_over self
                  /\ player_hand self2 = Some (mkHand [c1; c3])
                  /\ dealer_hand self2 = Some (mkHand [c2; c4])).
  { subst self2 self1. cbn. auto. }
  destruct Hbase as (Hnum2 & Hover2 & Hph2 & Hdh2).
  unfold check_initial_blackjack. rewrite Hph2, Hdh2. cbn [the_hand bind].
  assert (Hnatural : forall balance,
             Ok (set_player_balance self2 balance, stdin1, g2) = Ok (self', stdin', g') ->
             (exists read, stdin = read ++ stdin' /\ (1 <= List.length read)%nat)
             /\ num_decks (deck self') = num_decks (deck self)
             /\ game_over self' = game_over self
             /\ (exists ph dh,
                   player_hand self' = Some ph /\ dealer_hand self' = Some dh
                   /\ (2 <= List.length (hand_cards ph))%nat
                   /\ (2 <= List.length (hand_cards dh))%nat)).
  { intros balance [= <- <- <-]. cbn [deck game_over player_hand dealer_hand
                                      set_player_balance].
    repeat split; auto.
    exists (mkHand [c1; c3]), (mkHand [c2; c4]). cbn. repeat split; auto. }
  destruct (is_blackjack (mkHand [c1; c3])), (is_blackjack (mkHand [c2; c4]));
    cbn [andb bind]; try apply Hnatural.
  { replace self2 with (set_player_balance self2 (player_balance self2))
      by now destruct self2.
    apply Hnatural. }
  clear Hnatural.
  destruct (player_turn self2 stdin1 g2) as [[[self3 stdin3] g3]|e] eqn:Eturn;
    cbn [bind]; [|discriminate].
  destruct (player_turn_returns _ _ _ _ _ _ Eturn)
    as (Hdh3 & Hover3 & Hnum3 & (ph0 & ph3 & drawn & read & Hph0 & Hph3 & Hcards & Hread & _) & _).
  rewrite Hph2 in Hph0. injection Hph0 as <-. cbn [hand_cards] in Hcards.
  unfold settle_hand. rewrite Hph3. cbn [the_hand bind].
  assert (Hsettle : forall self4 g4 dh4,
             player_hand self4 = Some ph3 ->
             dealer_hand self4 = Some dh4 ->
             (2 <= List.length (hand_cards dh4))%nat ->
             num_decks (deck self4) = num_decks (deck self) ->
             game_over self4 = game_over self ->
             (' self5 <- determine_winner self4 ;; Ok (self5, stdin3, g4))
             = Ok (self', stdin', g') ->
             (exists read, stdin = read ++ stdin' /\ (1 <= List.length read)%nat)
             /\ num_decks (deck self') = num_decks (deck self)
             /\ game_over self' = game_over self
             /\ (exists ph dh,
                   player_hand self' = Some ph /\ dealer_hand self' = Some dh
                   /\ (2 <= List.length (hand_cards ph))%nat
                   /\ (2 <= List.length (hand_cards dh))%nat)).
  { intros self4 g4 dh4 Hph4 Hdh4 Hlen4 Hnum4 Hover4.
    destruct (determine_winner self4) as [self5|e] eqn:Ewin; cbn [bind];
      [|discriminate].
    destruct (determine_winner_returns _ _ Ewin) as (balance & ->).
    intros [= <- <- <-].
    cbn [deck game_over player_hand dealer_hand set_player_balance].
    split.
    { destruct Hread1 as (read1 & -> & Hlen1).
      exists (read1 ++ read). rewrite <- app_assoc, Hread. split; [reflexivity|].
      rewrite length_app. lia. }
    repeat split; auto.
    exists ph3, dh4. repeat split; auto.
    rewrite Hcards, length_app. cbn [List.length]. lia. }
  destruct (is_bust ph3); cbn [negb bind].
  - apply (Hsettle self3 g3 (mkHand [c2; c4])); auto; try congruence.
  - destruct (dealer_turn self3 g3) as [[self4 g4]|e] eqn:Edealer; cbn [bind];
      [|discriminate].
    destruct (dealer_turn_returns _ _ _ _ Edealer)
      as (dh3 & dh4 & d4 & more & Hdh3' & -> & Hnum4 & Hcards4).
    rewrite Hdh3, Hdh2 in Hdh3'. injection Hdh3' as <-. cbn [hand_cards] in Hcards4.
    apply (Hsettle _ g4 dh4); cbn; auto; try congruence.
    rewrite Hcards4. cbn [List.length app]. lia.
Qed.

Lemma place_bet_raises (stdin : list string) : forall self e,
  place_bet self stdin = Raise e -> e = EOFError.
Proof.
  induction stdin as [|line stdin IH]; intros self e; cbn [place_bet].
  - now intros [= <-].
  - destruct (float_of_string line) as [bet|]; [|apply IH].
    destruct ((bet <=? 0)%float || (player_balance self <? bet)%float);
      [apply IH|discriminate].
Qed.

(** On a shoe of one deck or more a round fails only for want of input. *)
Lemma play_hand_raises (self : BlackjackGame) (stdin : list string) (g : Random)
    (e : exn) :
  1 <= num_decks (deck self) ->
  play_hand self stdin g = Raise e -> e = EOFError.
Proof.
  intros Hdecks. unfold play_hand.
  destruct (place_bet self stdin) as [[self1 stdin1]|e1] eqn:Ebet; cbn [bind].
  2: { intros [= <-]. now apply (place_bet_raises stdin self). }
  destruct (place_bet_accepted _ _ _ _ Ebet) as (_ & _ & bet & _ & _ & _ & _ & Hself1).
  assert (Hdecks1 : 1 <= num_decks (deck self1)) by now subst self1.
  destruct (deal_initial_hands_returns self1 g Hdecks1) as (self2 & g2 & Edeal).
  rewrite Edeal. cbn [bind].
  destruct (deal_initial_hands_spec _ _ _ _ Edeal)
    as (c1 & c2 & c3 & c4 & d & Hself2 & Hdealt).
  apply deal_cards_num_decks in Hdealt.
  assert (Hbase : 1 <= num_decks (deck self2)
                  /\ player_hand self2 = Some (mkHand [c1; c3])
                  /\ dealer_hand self2 = Some (mkHand [c2; c4])).
  { subst self2. cbn. repeat split; auto. lia. }
  destruct Hbase as (Hdecks2 & Hph2 & Hdh2).
  unfold check_initial_blackjack. rewrite Hph2, Hdh2. cbn [the_hand bind].
  destruct (is_blackjack (mkHand [c1; c3])), (is_blackjack (mkHand [c2; c4]));
    cbn [andb bind]; try discriminate.
  destruct (player_turn self2 stdin1 g2) as [[[self3 stdin3] g3]|e3] eqn:Eturn;
    cbn [bind].
  2: { intros [= <-]. now apply (player_turn_raises _ _ _ _ _ _ Hph2 Hdh2 Hdecks2 Eturn). }
  destruct (player_turn_returns _ _ _ _ _ _ Eturn)
    as (Hdh3 & _ & Hnum3 & (ph0 & ph3 & _ & _ & _ & Hph3 & _) & _).
  unfold settle_hand. rewrite Hph3. cbn [the_hand bind].
  destruct (is_bust ph3); cbn [negb bind].
  - destruct (determine_winner_Ok self3 ph3 (mkHand [c2; c4]) Hph3 ltac:(congruence))
      as (self5 & ->).
    discriminate.
  - destruct (dealer_turn_Ok self3 g3 (mkHand [c2; c4]) ltac:(congruence) ltac:(lia))
      as (dh4 & d4 & g4 & _ & ->).
    cbn [bind].
    destruct (determine_winner_Ok (set_dealer_hand (set_deck self3 d4) (Some dh4))
                ph3 dh4 Hph3 eq_refl) as (self5 & ->).
    discriminate.
Qed.

(** X13. On a shoe of one deck or more a round fails only for want of
    input: never with [IndexError], never on a missing hand. A round that
    returns has read at least one line, has left both hands dealt, with two
    cards or more each, and has kept [num_decks]. *)
Theorem play_hand_outcomes (self : BlackjackGame) (stdin : list string)
    (g : Random) :
  1 <= num_decks (deck self) ->
  match play_hand self stdin g with
  | Raise e => e = EOFError
  | Ok (self', stdin', g') =>
      (exists read, stdin = read ++ stdin' /\ (1 <= List.length read)%nat)
      /\ num_decks (deck self') = num_decks (deck self)
      /\ (exists ph dh,
            player_hand self' = Some ph /\ dealer_hand self' = Some dh
            /\ (2 <= List.length (hand_cards ph))%nat
            /\ (2 <= List.length (hand_cards dh))%nat)
  end.
Proof.
  intros Hdecks.
  destruct (play_hand self stdin g) as [[[self' stdin'] g']|e] eqn:Ehand.
  - destruct (play_hand_returns _ _ _ _ _ _ Ehand) as (Hread & Hnum & _ & Hhands).
    auto.
  - now apply (play_hand_raises _ _ _ _ Hdecks Ehand).
Qed.

(** ** The session *)

(** [BlackjackGame.play_game]: rounds while the balance is above zero and the
    answer to [Play another hand?] is [Y]. Every round reads a line, so the
    loop ends with the input. *)
Equations? play_game (self : BlackjackGame) (stdin : list string) (g : Random)
  : result (BlackjackGame * list string * Random)
  by wf (List.length stdin) lt :=
  play_game self stdin g with (0 <? player_balance self)%float := {
    | false => Ok (self, stdin, g)
    | true with inspect (play_hand self stdin g) := {
        | exist _ (Raise e) _ => Raise e
        | exist _ (Ok (self', [], g')) _ => Raise EOFError
        | exist _ (Ok (self', line :: stdin', g')) Hhand
            with (upper line =? "Y")%string := {
            | true => play_game self' stdin' g'
            | false => Ok (self', stdin', g') } } }.
Proof.
  destruct (play_hand_returns _ _ _ _ _ _ Hhand) as ((read & -> & _) & _).
  rewrite length_app. cbn [List.length]. lia.
Qed.

(** The loop of [play_game], one turn unrolled. *)
Lemma play_game_step (self : BlackjackGame) (stdin : list string) (g : Random) :
  play_game self stdin g
  = if (0 <? player_balance self)%float
    then
      '(self', stdin', g') <- play_hand self stdin g ;;
      match stdin' with
      | [] => Raise EOFError
      | line :: stdin' =>
          if (upper line =? "Y")%string
          then play_game self' stdin' g'
          else Ok (self', stdin', g')
      end
    else Ok (self, stdin, g).
Proof.
  rewrite play_game_equation_1.
  destruct (0 <? player_balance self)%float;
    [rewrite play_game_clause_1_equation_1
    |now rewrite play_game_clause_1_equation_2].
  assert (Hclause : forall round : {r | play_hand self stdin g = r},
             play_game_unfold_clause_1_clause_2 self stdin g round
             = '(self', stdin', g') <- proj1_sig round ;;
               match stdin' with
               | [] => Raise EOFError
               | line :: stdin' =>
                   if (upper line =? "Y")%string
                   then play_game self' stdin' g'
                   else Ok (self', stdin', g')
               end).
  { intros [[[[self' [|line stdin']] g']|e] E]; simp play_game; cbn [proj1_sig bind];
      try reflexivity.
    destruct (upper line =? "Y")%string; simp play_game; reflexivity. }
  apply (Hclause (inspect _)).
Qed.

(** What a session that returns has read, and why it has ended. *)
Lemma play_game_returns (n : nat) : forall self stdin g self' stdin' g',
  (List.length stdin <= n)%nat ->
  play_game self stdin g = Ok (self', stdin', g') ->
  (exists read,
      stdin = read ++ stdin'
      /\ ((0 <? player_balance self)%float = true -> (2 <= List.length read)%nat))
  /\ num_decks (deck self') = num_decks (deck self)
  /\ ((0 <? player_balance self')%float = false
      \/ exists read line,
           stdin = read ++ line :: stdin' /\ upper line <> "Y"%string).
Proof.
  induction n as [|n IH]; intros self stdin g self' stdin' g' Hlen;
    rewrite play_game_step;
    destruct (0 <? player_balance self)%float eqn:Epos;
    try (intros [= <- <- <-]; split; [exists []; split; [reflexivity|discriminate]|];
         split; [reflexivity|now left]);
    destruct (play_hand self stdin g) as [[[self1 stdin1] g1]|e] eqn:Ehand;
    cbn [bind]; try discriminate;
    destruct (play_hand_returns _ _ _ _ _ _ Ehand)
      as ((read1 & Hread1 & Hlen1) & Hnum1 & _);
    destruct stdin1 as [|line stdin2]; try discriminate;
    subst stdin; rewrite length_app in Hlen; cbn [List.length] in Hlen; [lia|].
  destruct (upper line =? "Y")%string eqn:Eline.
  - intros Hgame. apply IH in Hgame; [|lia].
    destruct Hgame as ((read2 & -> & _) & Hnum & Hend).
    split; [|split].
    + exists (read1 ++ line :: read2). rewrite <- app_assoc. split; [reflexivity|].
      intros _. rewrite length_app. cbn [List.length]. lia.
    + congruence.
    + destruct Hend as [Hbroke|(read & line0 & Hread & Hline0)]; [now left|].
      right. exists (read1 ++ line :: read), line0.
      rewrite <- app_assoc. cbn [app]. now rewrite Hread.
  - intros [= <- <- <-]. split; [|split].
    + exists (read1 ++ [line]). rewrite <- app_assoc. split; [reflexivity|].
      intros _. rewrite length_app. cbn [List.length]. lia.
    + exact Hnum1.
    + right. exists read1, line. split; [reflexivity|].
      now apply String.eqb_neq.
Qed.

(** On a shoe of one deck or more a session fails only for want of input. *)
Lemma play_game_raises (n : nat) : forall self stdin g e,
  (List.length stdin <= n)%nat ->
  1 <= num_decks (deck self) ->
  play_game self stdin g = Raise e -> e = EOFError.
Proof.
  induction n as [|n IH]; intros self stdin g e Hlen Hdecks;
    rewrite play_game_step;
    destruct (0 <? player_balance self)%float; try discriminate;
    destruct (play_hand self stdin g) as [[[self1 stdin1] g1]|e1] eqn:Ehand;
    cbn [bind];
    try (intros [= <-]; now apply (play_hand_raises _ _ _ _ Hdecks Ehand));
    destruct (play_hand_returns _ _ _ _ _ _ Ehand)
      as ((read1 & Hread1 & Hlen1) & Hnum1 & _);
    (destruct stdin1 as [|line stdin2]; [now intros [= <-]|]);
    subst stdin; rewrite length_app in Hlen; cbn [List.length] in Hlen; [lia|].
  destruct (upper line =? "Y")%string; [|discriminate].
  apply IH; lia.
Qed.

(** X14. A session on a shoe of one deck or more fails only for want of
    input. One that returns does so for one of two reasons: the balance is
    not above zero, or the answer to [Play another hand?] was not [Y]; and if
    the balance was above zero at the start, it has read two lines at
    least, a bet and that answer. *)
Theorem play_game_outcomes (self : BlackjackGame) (stdin : list string)
    (g : Random) :
  1 <= num_decks (deck self) ->
  match play_game self stdin g with
  | Raise e => e = EOFError
  | Ok (self', stdin', g') =>
      (exists read,
          stdin = read ++ stdin'
          /\ ((0 <? player_balance self)%float = true ->
              (2 <= List.length read)%nat))
      /\ ((0 <? player_balance self')%float = false
          \/ exists read line,
               stdin = read ++ line :: stdin' /\ upper line <> "Y"%string)
  end.
Proof.
  intros Hdecks.
  destruct (play_game self stdin g) as [[[self' stdin'] g']|e] eqn:Egame.
  - destruct (play_game_returns _ _ _ _ _ _ _ (le_n _) Egame) as (Hread & _ & Hend).
    now split.
  - now apply (play_game_raises _ _ _ _ _ (le_n _) Hdecks Egame).
Qed.

(** [main], without the handler of [KeyboardInterrupt], which no line of
    input raises: a new game with 100 and its session, while the answer to
    [Start a new game?] is [Y]. *)
Equations? main (stdin : list string) (g : Random) : result (list string * Random)
  by wf (List.length stdin) lt :=
  main stdin g
    with inspect (let (game, g) := new_game 100 g in play_game game stdin g) := {
    | exist _ (Raise e) _ => Raise e
    | exist _ (Ok (_, [], _)) _ => Raise EOFError
    | exist _ (Ok (_, line :: stdin', g')) Hgame
        with (upper line =? "Y")%string := {
        | true => main stdin' g'
        | false => Ok (stdin', g') } }.
Proof.
  destruct (new_game 100 g) as [game g1].
  destruct (play_game_returns _ _ _ _ _ _ _ (le_n _) Hgame) as ((read & -> & _) & _).
  rewrite length_app. cbn [List.length]. lia.
Qed.

Lemma main_step (stdin : list string) (g : Random) :
  main stdin g
  = '(_, stdin', g') <- (let (game, g) := new_game 100 g in play_game game stdin g) ;;
    match stdin' with
    | [] => Raise EOFError
    | line :: stdin' =>
        if (upper line =? "Y")%string then main stdin' g' else Ok (stdin', g')
    end.
Proof.
  rewrite main_equation_1.
  assert (Hclause :
            forall session : {r | (let (game, g) := new_game 100 g in
                                   play_game game stdin g) = r},
              main_unfold_clause_1 stdin g session
              = '(_, stdin', g') <- proj1_sig session ;;
                match stdin' with
                | [] => Raise EOFError
                | line :: stdin' =>
                    if (upper line =? "Y")%string
                    then main stdin' g' else Ok (stdin', g')
                end).
  { intros [[[[game' [|line stdin']] g']|e] E]; simp main; cbn [proj1_sig bind];
      try reflexivity.
    destruct (upper line =? "Y")%string; simp main; reflexivity. }
  apply (Hclause (inspect _)).
Qed.

Lemma new_game_spec (balance : float) (g : Random) :
  num_decks (deck (fst (new_game balance g))) = 6
  /\ player_balance (fst (new_game balance g)) = balance.
Proof.
  unfold new_game, new_deck.
  pose proof (reset_spec (mkDeck [] 6) g) as Hreset.
  destruct (reset (mkDeck [] 6) g) as [d g1]. cbn [fst deck player_balance].
  tauto.
Qed.

(** X15. [main] fails only for want of input, whatever is typed: no line
    makes it pop an empty shoe or use a hand that was not dealt. When it
    returns it has read three lines at least (a bet, the answer to
    [Play another hand?] and the answer to [Start a new game?]), so on fewer
    than three lines it ends with [EOFError]. *)
Theorem main_outcomes (stdin : list string) (g : Random) :
  match main stdin g with
  | Raise e => e = EOFError
  | Ok (stdin', g') =>
      exists read, stdin = read ++ stdin' /\ (3 <= List.length read)%nat
  end.
Proof.
  remember (List.length stdin) as n eqn:Hn.
  assert (Hlen : (List.length stdin <= n)%nat) by lia. clear Hn.
  revert stdin g Hlen.
  assert (Hround : forall stdin g,
             match (let (game, g1) := new_game 100 g in play_game game stdin g1) with
             | Raise e => e = EOFError
             | Ok (_, stdin1, _) =>
                 exists read, stdin = read ++ stdin1 /\ (2 <= List.length read)%nat
             end).
  { intros stdin g.
    destruct (new_game_spec 100 g) as [Hdecks Hbalance].
    destruct (new_game 100 g) as [game g1]. cbn [fst] in Hdecks, Hbalance.
    assert (Hdecks' : 1 <= num_decks (deck game)) by lia.
    destruct (play_game game stdin g1) as [[[game' stdin1] g2]|e] eqn:Egame.
    - destruct (play_game_returns _ _ _ _ _ _ _ (le_n _) Egame)
        as ((read & -> & Hread) & _).
      exists read. split; [reflexivity|]. apply Hread. now rewrite Hbalance.
    - apply (play_game_raises _ _ _ _ _ (le_n _) Hdecks' Egame). }
  induction n as [|n IH]; intros stdin g Hlen; rewrite main_step;
    specialize (Hround stdin g);
    destruct (let (game, g1) := new_game 100 g in play_game game stdin g1)
      as [[[game' stdin1] g2]|e];
    cbn [bind]; try exact Hround;
    destruct Hround as (read & -> & Hread);
    (destruct stdin1 as [|line stdin2]; [reflexivity|]);
    rewrite length_app in Hlen; cbn [List.length] in Hlen; [lia|].
  destruct (upper line =? "Y")%string.
  - specialize (IH stdin2 g2 ltac:(lia)).
    destruct (main stdin2 g2) as [[stdin' g']|e]; [|exact IH].
    destruct IH as (read' & -> & _).
    exists (read ++ line :: read'). rewrite <- app_assoc. split; [reflexivity|].
    rewrite length_app. cbn [List.length]. lia.
  - exists (read ++ [line]). rewrite <- app_assoc. split; [reflexivity|].
    rewrite length_app. cbn [List.length]. lia.
Qed.

(** *** After a bet that is not a number *)

Lemma add_nan_l (x : float) : (nan + x)%float = nan.
Proof.
  apply Prim2SF_inj. rewrite add_spec, Prim2SF_nan. reflexivity.
Qed.

Lemma determine_winner_money (self self' : BlackjackGame) :
  determine_winner self = Ok self' ->
  current_bet self' = current_bet self
  /\ (player_balance self' = player_balance self
      \/ player_balance self' = (player_balance self + current_bet self * 2)%float
      \/ player_balance self' = (player_balance self + current_bet self)%float).
Proof.
  unfold determine_winner.
  destruct (player_hand self) as [ph|]; cbn [the_hand bind]; [|discriminate].
  destruct (dealer_hand self) as [dh|]; cbn [the_hand bind]; [|discriminate].
  destruct (is_bust ph); [intros [= <-]; auto|].
  destruct (is_bust dh); [intros [= <-]; cbn; auto|].
  destruct (get_value dh <? get_value ph); [intros [= <-]; cbn; auto|].
  destruct (get_value ph <? get_value dh); intros [= <-]; cbn; auto.
Qed.

(** A round whose bet reads as NaN leaves bet and balance NaN. *)
Lemma play_hand_nan (self : BlackjackGame) (line : string) (stdin : list string)
    (g : Random) (self' : BlackjackGame) (stdin' : list string) (g' : Random) :
  float_of_string line = Some nan ->
  play_hand self (line :: stdin) g = Ok (self', stdin', g') ->
  player_balance self' = nan.
Proof.
  intros Hnan. unfold play_hand. rewrite (place_bet_nan self line stdin Hnan).
  cbn [bind].
  destruct (deal_initial_hands _ g) as [[self2 g2]|e] eqn:Edeal; cbn [bind];
    [|discriminate].
  destruct (deal_initial_hands_spec _ _ _ _ Edeal)
    as (c1 & c2 & c3 & c4 & d & -> & _).
  cbn [player_balance current_bet set_player_balance set_current_bet game_over].
  unfold check_initial_blackjack. cbn [player_hand dealer_hand the_hand bind].
  cbn [player_balance current_bet].
  destruct (is_blackjack (mkHand [c1; c3])), (is_blackjack (mkHand [c2; c4]));
    cbn [andb bind];
    try (intros [= <- <- <-]; cbn [player_balance set_player_balance];
         first [apply add_nan_l | reflexivity]).
  destruct (player_turn _ stdin g2) as [[[self3 stdin3] g3]|e] eqn:Eturn;
    cbn [bind]; [|discriminate].
  destruct (player_turn_returns _ _ _ _ _ _ Eturn) as (_ & _ & _ & _ & Hmoney).
  cbn [player_balance current_bet] in Hmoney.
  assert (Hbalance3 : player_balance self3 = nan).
  { destruct Hmoney as [[_ ->]|[_ ->]]; reflexivity. }
  unfold settle_hand.
  destruct (player_hand self3) as [ph3|]; cbn [the_hand bind]; [|discriminate].
  assert (Hwin : forall self4 g4,
             player_balance self4 = nan ->
             (' self5 <- determine_winner self4 ;; Ok (self5, stdin3, g4))
             = Ok (self', stdin', g') ->
             player_balance self' = nan).
  { intros self4 g4 Hbalance4.
    destruct (determine_winner self4) as [self5|e] eqn:Ewin; cbn [bind];
      [|discriminate].
    intros [= <- <- <-].
    destruct (determine_winner_money _ _ Ewin) as (_ & [->| [->| ->]]);
      rewrite Hbalance4; first [reflexivity | apply add_nan_l]. }
  destruct (is_bust ph3); cbn [negb bind]; [now apply Hwin|].
  destruct (dealer_turn self3 g3) as [[self4 g4]|e] eqn:Edealer; cbn [bind];
    [|discriminate].
  destruct (dealer_turn_returns _ _ _ _ Edealer) as (dh3 & dh4 & d4 & more & _ & -> & _).
  now apply Hwin.
Qed.

(** X16. Once a bet that reads as NaN has been taken, the round is the last
    of the session, whatever is answered to [Play another hand?], [Y]
    included: the balance comes out of the round as NaN, which is not above
    zero, and the loop of [play_game] ends. *)
Theorem play_game_after_nan_bet (self : BlackjackGame) (line : string)
    (stdin : list string) (g : Random) :
  float_of_string line = Some nan ->
  (0 <? player_balance self)%float = true ->
  play_game self (line :: stdin) g
  = '(self', stdin', g') <- play_hand self (line :: stdin) g ;;
    match stdin' with
    | [] => Raise EOFError
    | _ :: stdin' => Ok (self', stdin', g')
    end
  /\ (forall self' stdin' g',
      play_game self (line :: stdin) g = Ok (self', stdin', g') ->
      player_balance self' = nan).
Proof.
  intros Hnan Hpos.
  assert (Hstep : play_game self (line :: stdin) g
                  = '(self', stdin', g') <- play_hand self (line :: stdin) g ;;
                    match stdin' with
                    | [] => Raise EOFError
                    | _ :: stdin' => Ok (self', stdin', g')
                    end).
  { rewrite play_game_step, Hpos.
    destruct (play_hand self (line :: stdin) g) as [[[self1 stdin1] g1]|e] eqn:Ehand;
      cbn [bind]; [|reflexivity].
    destruct stdin1 as [|answer stdin2]; [reflexivity|].
    destruct (upper answer =? "Y")%string; [|reflexivity].
    rewrite play_game_step, (play_hand_nan _ _ _ _ _ _ _ Hnan Ehand).
    reflexivity. }
  split; [exact Hstep|].
  intros self' stdin' g'. rewrite Hstep.
  destruct (play_hand self (line :: stdin) g) as [[[self1 stdin1] g1]|e] eqn:Ehand;
    cbn [bind]; [|discriminate].
  destruct stdin1 as [|answer stdin2]; [discriminate|].
  intros [= <- <- <-]. apply (play_hand_nan _ _ _ _ _ _ _ Hnan Ehand).
Qed.

(** *** The order of the initial deal *)

Lemma deal_card_last (d : Deck) (g : Random) (rest : list Card) (card : Card) :
  cards d = rest ++ [card] ->
  (9 <= List.length rest)%nat ->
  deal_card d g = Ok (card, mkDeck rest (num_decks d), g).
Proof.
  intros Hcards Hrest. unfold deal_card.
  assert (Hlen : (Z.of_nat (List.length (cards d)) <? 10) = false).
  { apply Z.ltb_ge. rewrite Hcards, length_app. cbn [List.length]. lia. }
  rewrite Hlen. now rewrite (proj2 (pop_Some _ _ _) Hcards).
Qed.

(** X17. With 13 cards or more in the shoe the initial deal shuffles
    nothing: the last card of the list and the third from the end go to the
    player, the second and the fourth from the end to the dealer, each hand
    in the order dealt, and bet and balance are as they were. *)
Theorem deal_initial_hands_order (self : BlackjackGame) (g : Random)
    (rest : list Card) (c1 c2 c3 c4 : Card) :
  cards (deck self) = rest ++ [c4; c3; c2; c1] ->
  (9 <= List.length rest)%nat ->
  deal_initial_hands self g
  = Ok (mkGame (mkDeck rest (num_decks (deck self))) (player_balance self)
               (Some (mkHand [c1; c3])) (Some (mkHand [c2; c4]))
               (current_bet self) (game_over self),
        g).
Proof.
  intros Hcards Hrest. unfold deal_initial_hands, deal_round.
  rewrite (deal_card_last (deck self) g (rest ++ [c4; c3; c2]) c1);
    [|rewrite Hcards, <- app_assoc; reflexivity|rewrite length_app; lia].
  cbn [bind].
  rewrite (deal_card_last _ g (rest ++ [c4; c3]) c2);
    [|cbn [cards]; rewrite <- app_assoc; reflexivity|rewrite length_app; lia].
  cbn [bind num_decks].
  rewrite (deal_card_last _ g (rest ++ [c4]) c3);
    [|cbn [cards]; rewrite <- app_assoc; reflexivity|rewrite length_app; lia].
  cbn [bind num_decks].
  rewrite (deal_card_last _ g rest c4); [|reflexivity|exact Hrest].
  reflexivity.
Qed.

End MoreGameProperties.

(** * The properties at work *)

Import Console.

(** Ace, 5 and King: one Ace, the others sum to 15, so the Ace counts 1. *)
Lemma get_value_spec_witness :
  get_value (mkHand [mkCard SPADES ACE; mkCard HEARTS FIVE; mkCard CLUBS KING]) = 16.
Proof.
  exact (proj1 (proj2 (get_value_spec
    (mkHand [mkCard SPADES ACE; mkCard HEARTS FIVE; mkCard CLUBS KING]))) eq_refl).
Defined.

(** Ace and King are a blackjack. *)
Lemma is_blackjack_iff_witness :
  is_blackjack (mkHand [mkCard SPADES ACE; mkCard HEARTS KING]) = true.
Proof.
  apply (proj2 (proj1 (is_blackjack_iff
    (mkHand [mkCard SPADES ACE; mkCard HEARTS KING])))).
  split; reflexivity.
Defined.

(** Sixty cards in a row from a one-deck shoe that starts with three: the shoe
    is rebuilt twice on the way. *)
Lemma deal_card_never_fails_witness :
  exists dealt self' g',
    deal_cards (RT := runtime) 60 (mkDeck (firstn 3 full_deck) 1) 0%nat = Ok (dealt, self', g')
    /\ List.length dealt = 60%nat.
Proof.
  destruct (deal_card_never_fails (RT := runtime) (mkDeck (firstn 3 full_deck) 1) 0%nat 60
              ltac:(cbn; lia))
    as [_ (dealt & self' & g' & Hrun & Hlen & _)].
  now exists dealt, self', g'.
Defined.

(** Nineteen against seventeen with 10 staked and 90 left: 110. *)
Lemma determine_winner_spec_witness :
  exists balance,
    determine_winner
      (seated 90 10 [mkCard SPADES KING; mkCard HEARTS NINE]
                    [mkCard CLUBS KING; mkCard DIAMONDS SEVEN] [])
    = Ok (set_player_balance
            (seated 90 10 [mkCard SPADES KING; mkCard HEARTS NINE]
                          [mkCard CLUBS KING; mkCard DIAMONDS SEVEN] [])
            balance)
    /\ balance = 110%float.
Proof.
  destruct (determine_winner_spec
              (seated 90 10 [mkCard SPADES KING; mkCard HEARTS NINE]
                            [mkCard CLUBS KING; mkCard DIAMONDS SEVEN] [])
              _ _ eq_refl eq_refl)
    as (balance & Hrun & _ & Hwin & _).
  exists balance. split; [exact Hrun|].
  apply Hwin; [reflexivity|]. right. cbv. reflexivity.
Defined.

(** The first scenario of the specification: 100 in hand, 10 staked, Ace and
    King against 9 and 7: the round ends at the check, with 115. *)
Lemma natural_blackjack_check_witness :
  exists self',
    play_hand (RT := runtime) (table 100 [mkCard SPADES ACE; mkCard DIAMONDS NINE;
                          mkCard HEARTS KING; mkCard CLUBS SEVEN])
              ["10"%string; "h"%string] 0%nat
    = Ok (self', ["h"%string], 0%nat)
    /\ player_balance self' = 115%float
    /\ current_bet self' = 10%float.
Proof.
  destruct (natural_blackjack_check (RT := runtime)
              (table 100 [mkCard SPADES ACE; mkCard DIAMONDS NINE;
                          mkCard HEARTS KING; mkCard CLUBS SEVEN])
              ["10"%string; "h"%string] 0%nat _ _ _ _ eq_refl eq_refl)
    as (ph & dh & Hph & Hdh & _ & _ & _ & _ & _ & Hplayer & _).
  injection Hph as <-. injection Hdh as <-.
  rewrite (Hplayer eq_refl eq_refl).
  eexists. split; [reflexivity|]. split; reflexivity.
Defined.

(** Doubling on 5 and 6 with 10 staked and 90 left, a King to come: 80 left,
    20 staked, three cards in hand, and the next line unread. *)
Lemma double_down_spec_witness :
  player_turn (RT := runtime)
    (seated 90 10 [mkCard SPADES FIVE; mkCard HEARTS SIX]
                  [mkCard CLUBS NINE; mkCard DIAMONDS SEVEN] [mkCard CLUBS KING])
    ["d"%string; "h"%string] 0%nat
  = Ok (seated 80 20 [mkCard SPADES FIVE; mkCard HEARTS SIX; mkCard CLUBS KING]
                     [mkCard CLUBS NINE; mkCard DIAMONDS SEVEN] [],
        ["h"%string], 0%nat).
Proof.
  apply (proj1 (double_down_spec (RT := runtime)
    (seated 90 10 [mkCard SPADES FIVE; mkCard HEARTS SIX]
                  [mkCard CLUBS NINE; mkCard DIAMONDS SEVEN] [mkCard CLUBS KING])
    "d"%string ["h"%string] 0%nat _ _ eq_refl eq_refl eq_refl eq_refl)).
  - split; reflexivity.
  - reflexivity.
Defined.

(** The dealer stands on Ace and 6. *)
Lemma dealer_turn_spec_witness :
  dealer_turn (RT := runtime)
    (seated 90 10 [mkCard SPADES KING; mkCard HEARTS NINE]
                  [mkCard CLUBS ACE; mkCard DIAMONDS SIX] [mkCard CLUBS KING])
    0%nat
  = Ok (seated 90 10 [mkCard SPADES KING; mkCard HEARTS NINE]
                     [mkCard CLUBS ACE; mkCard DIAMONDS SIX] [mkCard CLUBS KING],
        0%nat).
Proof.
  apply (proj1 (proj2 (proj2 (proj2 (proj2 (dealer_turn_spec (RT := runtime)
    (seated 90 10 [mkCard SPADES KING; mkCard HEARTS NINE]
                  [mkCard CLUBS ACE; mkCard DIAMONDS SIX] [mkCard CLUBS KING])
    [] 0%nat _ _ eq_refl eq_refl))))) CLUBS DIAMONDS eq_refl).
Defined.

(** The line [nan] at the first prompt of a game with 100 in hand. *)
Lemma place_bet_accepts_nan_witness :
  exists self',
    place_bet (RT := runtime) (table 100 []) ["nan"%string] = Ok (self', [])
    /\ current_bet self' = nan
    /\ (0 <? current_bet self')%float = false
    /\ (current_bet self' <=? 100)%float = false.
Proof.
  exact (place_bet_accepts_nan (RT := runtime) (table 100 []) "nan"%string []
           eq_refl).
Defined.

Lemma place_bet_nan_balance_witness :
  exists self',
    place_bet (RT := runtime) (table 100 []) ["nan"%string; "10"%string] = Ok (self', ["10"%string])
    /\ (0 <=? player_balance self')%float = false
    /\ is_nan (player_balance self') = true.
Proof.
  exact (place_bet_nan_balance (RT := runtime) (table 100 []) "nan"%string ["10"%string]
           eq_refl eq_refl).
Defined.

(** King, 5, Ace and Ace, King, 5 are the same hand. *)
Lemma get_value_Permutation_witness :
  get_value (mkHand [mkCard SPADES KING; mkCard HEARTS FIVE; mkCard CLUBS ACE])
  = get_value (mkHand [mkCard CLUBS ACE; mkCard SPADES KING; mkCard HEARTS FIVE]).
Proof.
  apply (get_value_Permutation
           (mkHand [mkCard SPADES KING; mkCard HEARTS FIVE; mkCard CLUBS ACE])
           (mkHand [mkCard CLUBS ACE; mkCard SPADES KING; mkCard HEARTS FIVE])).
  cbn [hand_cards].
  apply (Permutation_cons_app [mkCard CLUBS ACE] [mkCard HEARTS FIVE]).
  apply (Permutation_cons_app [mkCard CLUBS ACE] []).
  apply Permutation_refl.
Defined.

(** Five cards left in a shoe of no deck: they are thrown away. *)
Lemma deal_card_no_decks_witness :
  deal_card (RT := runtime) (mkDeck (firstn 5 full_deck) 0) 0%nat = Raise IndexError.
Proof.
  apply (deal_card_no_decks (RT := runtime) (mkDeck (firstn 5 full_deck) 0) 0%nat);
    cbn; lia.
Defined.

(** Two cards off a shoe of eleven. *)
Lemma deal_cards_from_the_end_witness :
  deal_cards (RT := runtime) 2
    (mkDeck (firstn 9 full_deck ++ [mkCard CLUBS TWO; mkCard SPADES ACE]) 6) 0%nat
  = Ok ([mkCard SPADES ACE; mkCard CLUBS TWO], mkDeck (firstn 9 full_deck) 6, 0%nat).
Proof.
  apply (deal_cards_from_the_end (RT := runtime)
           [mkCard SPADES ACE; mkCard CLUBS TWO]
           (mkDeck (firstn 9 full_deck ++ [mkCard CLUBS TWO; mkCard SPADES ACE]) 6)
           0%nat (firstn 9 full_deck)).
  - reflexivity.
  - cbn. lia.
Defined.

Lemma card_str_injective_witness :
  card_str (mkCard HEARTS TEN) = "10♥"%string
  /\ mkCard HEARTS TEN = mkCard HEARTS TEN.
Proof.
  split; [reflexivity|].
  apply (card_str_injective (mkCard HEARTS TEN) (mkCard HEARTS TEN)). reflexivity.
Defined.

(** The dealer's line during the player's turn, on Ace and 6: the Ace is
    there. *)
Lemma display_shows_every_card_witness :
  exists pre post,
    display (mkHand [mkCard CLUBS ACE; mkCard DIAMONDS SIX]) "DEALER" true
    = ("DEALER" ++ ": " ++ (pre ++ ("[" ++ card_str (mkCard CLUBS ACE) ++ "]") ++ post)
       ++ " (Value: " ++ "?" ++ ")")%string.
Proof.
  apply (display_shows_every_card
           (mkHand [mkCard CLUBS ACE; mkCard DIAMONDS SIX]) "DEALER" true
           (mkCard CLUBS ACE)).
  cbn. now left.
Defined.

Example display_dealer_hidden :
  display (mkHand [mkCard CLUBS ACE; mkCard DIAMONDS SIX]) "DEALER" true
  = "DEALER: [A♣], [6♦] (Value: ?)"%string
  /\ display (mkHand [mkCard CLUBS ACE; mkCard DIAMONDS SIX]) "DEALER" false
     = "DEALER: [A♣], [6♦] (Value: 17)"%string.
Proof. split; reflexivity. Qed.

(** A bet of 25 on a balance of 100. *)
Lemma place_bet_in_range_witness :
  (0 <? 25)%float = true /\ (25 <=? 100)%float = true.
Proof.
  exact (place_bet_in_range (RT := runtime) ["x"%string; "25"%string]
           (table 100 [])
           (set_player_balance (set_current_bet (table 100 []) 25) 75) []
           eq_refl eq_refl eq_refl).
Defined.

Lemma player_turn_frame_witness :
  match player_turn (RT := runtime)
          (seated 90 10 [mkCard SPADES FIVE; mkCard HEARTS SIX]
                        [mkCard CLUBS NINE; mkCard DIAMONDS SEVEN]
                        [mkCard CLUBS KING])
          ["?"%string; "h"%string; "s"%string] 0%nat
  with
  | Raise e => e = EOFError
  | Ok (self', stdin', g') =>
      dealer_hand self' = Some (mkHand [mkCard CLUBS NINE; mkCard DIAMONDS SEVEN])
      /\ (exists ph' drawn read,
            player_hand self' = Some ph'
            /\ hand_cards ph' = [mkCard SPADES FIVE; mkCard HEARTS SIX] ++ drawn
            /\ ["?"%string; "h"%string; "s"%string] = read ++ stdin'
            /\ (List.length drawn <= List.length read)%nat)
      /\ ((current_bet self' = 10%float /\ player_balance self' = 90%float)
          \/ (current_bet self' = (10 * 2)%float
              /\ player_balance self' = (90 - 10)%float))
  end.
Proof.
  apply (player_turn_frame (RT := runtime)
           (seated 90 10 [mkCard SPADES FIVE; mkCard HEARTS SIX]
                         [mkCard CLUBS NINE; mkCard DIAMONDS SEVEN]
                         [mkCard CLUBS KING])
           ["?"%string; "h"%string; "s"%string] 0%nat
           (mkHand [mkCard SPADES FIVE; mkCard HEARTS SIX])
           (mkHand [mkCard CLUBS NINE; mkCard DIAMONDS SEVEN])
           eq_refl eq_refl).
  cbn. lia.
Defined.

(** The dealer on 9 and 7 draws a 5. *)
Lemma dealer_turn_range_witness :
  exists self' g' dh',
    dealer_turn (RT := runtime)
      (seated 90 10 [mkCard SPADES KING; mkCard HEARTS NINE]
                    [mkCard CLUBS NINE; mkCard DIAMONDS SEVEN]
                    [mkCard CLUBS FIVE]) 0%nat
    = Ok (self', g')
    /\ dealer_hand self' = Some dh'
    /\ 17 <= get_value dh'
    /\ get_value dh' <= 26.
Proof.
  destruct (dealer_turn_range (RT := runtime)
              (seated 90 10 [mkCard SPADES KING; mkCard HEARTS NINE]
                            [mkCard CLUBS NINE; mkCard DIAMONDS SEVEN]
                            [mkCard CLUBS FIVE]) 0%nat
              (mkHand [mkCard CLUBS NINE; mkCard DIAMONDS SEVEN])
              eq_refl ltac:(cbn; lia))
    as (self' & g' & dh' & Hrun & Hdh & Hlow & Hhigh & _).
  exists self', g', dh'. repeat split; auto.
Defined.

Lemma play_hand_outcomes_witness :
  match play_hand (RT := runtime)
          (table 100 [mkCard SPADES KING; mkCard DIAMONDS NINE;
                      mkCard HEARTS SIX; mkCard CLUBS SEVEN])
          ["20"%string] 0%nat
  with
  | Raise e => e = EOFError
  | Ok (self', stdin', g') =>
      (exists read, ["20"%string] = read ++ stdin' /\ (1 <= List.length read)%nat)
      /\ num_decks (deck self') = 6
      /\ (exists ph dh,
            player_hand self' = Some ph /\ dealer_hand self' = Some dh
            /\ (2 <= List.length (hand_cards ph))%nat
            /\ (2 <= List.length (hand_cards dh))%nat)
  end.
Proof.
  apply (play_hand_outcomes (RT := runtime)
           (table 100 [mkCard SPADES KING; mkCard DIAMONDS NINE;
                       mkCard HEARTS SIX; mkCard CLUBS SEVEN])
           ["20"%string] 0%nat).
  cbn. lia.
Defined.

Lemma play_game_outcomes_witness :
  match play_game (RT := runtime)
          (table 100 [mkCard SPADES ACE; mkCard DIAMONDS NINE;
                      mkCard HEARTS KING; mkCard CLUBS SEVEN])
          ["10"%string; "n"%string] 0%nat
  with
  | Raise e => e = EOFError
  | Ok (self', stdin', g') =>
      (exists read,
          ["10"%string; "n"%string] = read ++ stdin'
          /\ ((0 <? 100)%float = true -> (2 <= List.length read)%nat))
      /\ ((0 <? player_balance self')%float = false
          \/ exists read line,
               ["10"%string; "n"%string] = read ++ line :: stdin'
               /\ upper line <> "Y"%string)
  end.
Proof.
  apply (play_game_outcomes (RT := runtime)
           (table 100 [mkCard SPADES ACE; mkCard DIAMONDS NINE;
                       mkCard HEARTS KING; mkCard CLUBS SEVEN])
           ["10"%string; "n"%string] 0%nat).
  cbn. lia.
Defined.

(** The bet [nan], then [y] to play on: the session is over all the same. *)
Lemma play_game_after_nan_bet_witness :
  play_game (RT := runtime)
    (table 100 [mkCard SPADES KING; mkCard DIAMONDS NINE;
                mkCard HEARTS NINE; mkCard CLUBS SEVEN])
    ["nan"%string; "s"%string; "y"%string; "10"%string] 0%nat
  = ('(self', stdin', g') <-
       play_hand (RT := runtime)
         (table 100 [mkCard SPADES KING; mkCard DIAMONDS NINE;
                     mkCard HEARTS NINE; mkCard CLUBS SEVEN])
         ["nan"%string; "s"%string; "y"%string; "10"%string] 0%nat ;;
     match stdin' with
     | [] => Raise EOFError
     | _ :: stdin' => Ok (self', stdin', g')
     end)
  /\ (forall self' stdin' g',
      play_game (RT := runtime)
        (table 100 [mkCard SPADES KING; mkCard DIAMONDS NINE;
                    mkCard HEARTS NINE; mkCard CLUBS SEVEN])
        ["nan"%string; "s"%string; "y"%string; "10"%string] 0%nat
      = Ok (self', stdin', g') ->
      player_balance self' = nan).
Proof.
  exact (play_game_after_nan_bet (RT := runtime)
           (table 100 [mkCard SPADES KING; mkCard DIAMONDS NINE;
                       mkCard HEARTS NINE; mkCard CLUBS SEVEN])
           "nan"%string ["s"%string; "y"%string; "10"%string] 0%nat
           eq_refl eq_refl).
Defined.

(** The shoe of the first scenario. *)
Lemma deal_initial_hands_order_witness :
  deal_initial_hands (RT := runtime)
    (table 100 [mkCard SPADES ACE; mkCard DIAMONDS NINE;
                mkCard HEARTS KING; mkCard CLUBS SEVEN]) 0%nat
  = Ok (seated 100 0 [mkCard SPADES ACE; mkCard HEARTS KING]
                     [mkCard DIAMONDS NINE; mkCard CLUBS SEVEN] [],
        0%nat).
Proof.
  apply (deal_initial_hands_order (RT := runtime)
           (table 100 [mkCard SPADES ACE; mkCard DIAMONDS NINE;
                       mkCard HEARTS KING; mkCard CLUBS SEVEN]) 0%nat
           (firstn 20 (fresh_cards 1))).
  - reflexivity.
  - vm_compute. lia.
Defined.

(** The scenarios of the specification, run. *)

Example scenario_natural :
  play_hand (RT := runtime) (table 100 [mkCard SPADES ACE; mkCard DIAMONDS NINE;
                        mkCard HEARTS KING; mkCard CLUBS SEVEN])
            ["10"%string] 0%nat
  = Ok (seated 115 10 [mkCard SPADES ACE; mkCard HEARTS KING]
                      [mkCard DIAMONDS NINE; mkCard CLUBS SEVEN] [],
        [], 0%nat).
Proof. reflexivity. Qed.

Example scenario_bust :
  play_hand (RT := runtime) (table 100 [mkCard SPADES KING; mkCard DIAMONDS NINE;
                        mkCard HEARTS SIX; mkCard CLUBS SEVEN;
                        mkCard CLUBS QUEEN; mkCard CLUBS TWO])
            ["20"%string; "h"%string] 0%nat
  = Ok (seated 80 20 [mkCard SPADES KING; mkCard HEARTS SIX; mkCard CLUBS QUEEN]
                     [mkCard DIAMONDS NINE; mkCard CLUBS SEVEN] [mkCard CLUBS TWO],
        [], 0%nat).
Proof. reflexivity. Qed.

(** A reply that is no bet, a bet above the balance, then a bet; a reply that
    is no action, a hit, then a stand: 17 against the dealer's 16, who draws
    a 5 and wins with 21. *)
Example scenario_retries :
  play_hand (RT := runtime) (table 100 [mkCard SPADES KING; mkCard DIAMONDS NINE;
                        mkCard HEARTS FIVE; mkCard CLUBS SEVEN;
                        mkCard CLUBS TWO; mkCard DIAMONDS FIVE])
            ["ten"%string; "500"%string; "10"%string;
             "x"%string; "h"%string; "s"%string] 0%nat
  = Ok (seated 90 10 [mkCard SPADES KING; mkCard HEARTS FIVE; mkCard CLUBS TWO]
                     [mkCard DIAMONDS NINE; mkCard CLUBS SEVEN; mkCard DIAMONDS FIVE] [],
        [], 0%nat).
Proof. reflexivity. Qed.

Example value_ace_king :
  get_value (mkHand [mkCard SPADES ACE; mkCard HEARTS KING]) = 21.
Proof. reflexivity. Qed.

(** A session of two rounds and a second session declined. *)
Example scenario_session :
  main (RT := runtime) ["10"%string; "s"%string; "y"%string; "nan"%string;
                       "s"%string; "y"%string; "n"%string; "left"%string] 0%nat
  = Ok (["left"%string], 1%nat).
Proof. vm_compute. reflexivity. Qed.
